(** * The SSH server facade and worker of the controller

    A shallow embedding of
    - [apiserver/facades/controller/sshserver]: [Register],
      [NewExternalFacade], [NewFacade], [authorizedKeysPerModel] and
      [PublicKeyAuthentication];
    - the parts of [internal/worker/sshserver] that its test-suite
      exercises ([Validate], the public-key handler and the session
      handler of the terminating hop).

    Go functions returning [(T, error)] are embedded as functions into
    [result T]; a function returning only [error] returns [option error],
    [None] standing for [nil].  Calls that leave the facade (state pool,
    system state) are recorded in a call log, so that statements about
    which calls are made, and in which order, can be written down. *)

From Stdlib Require Import String Ascii List Bool Arith NArith Lia.
From Stdlib.Strings Require Import Byte.
From Stdlib Require Import DecimalString.
Import ListNotations.
Local Open Scope string_scope.
Local Open Scope list_scope.

Set Implicit Arguments.

(** ** Errors, as [github.com/juju/errors] builds them *)

Module Errors.

(** The error values that occur in the package.  [Raw] is an error produced
    by a collaborator (state, parsing libraries): all that is observed of it
    is its message and whether [errors.Is(err, errors.NotFound)] holds. *)
Inductive error : Type :=
| Raw (msg : string) (notFound : bool)
| ErrPerm
| Errorf (msg : string)
| NotFoundf (msg : string)
| NotValidf (msg : string)
| Trace (err : error).

(** [err.Error()]. [errors.NotFoundf] appends [" not found"] to the
    formatted message and [errors.NotValidf] appends [" not valid"];
    [errors.Trace] keeps the message of its cause. *)
Fixpoint Error (err : error) : string :=
  match err with
  | Raw msg _ => msg
  | ErrPerm => "permission denied"
  | Errorf msg => msg
  | NotFoundf msg => msg ++ " not found"
  | NotValidf msg => msg ++ " not valid"
  | Trace e => Error e
  end.

(** [errors.Is(err, errors.NotFound)].  [errors.Errorf] formats its
    arguments into a fresh message and records no cause. *)
Fixpoint IsNotFound (err : error) : bool :=
  match err with
  | Raw _ nf => nf
  | ErrPerm => false
  | Errorf _ => false
  | NotFoundf _ => true
  | NotValidf _ => false
  | Trace e => IsNotFound e
  end.

(** [errors.Is(err, errors.NotValid)]. *)
Fixpoint IsNotValid (err : error) : bool :=
  match err with
  | NotValidf _ => true
  | Trace e => IsNotValid e
  | _ => false
  end.

Inductive result (A : Type) : Type :=
| Ok (a : A)
| Err (err : error).

Arguments Ok {A} a.
Arguments Err {A} err.

Definition isOk {A : Type} (r : result A) : bool :=
  match r with Ok _ => true | Err _ => false end.

End Errors.

Import Errors.

(** ** Collaborators of the facade *)

(** [github.com/juju/names/v5]: user tags. *)
Class Names : Type := {
  UserTag : Type;
  ParseUserTag : string -> result UserTag
}.

(** [golang.org/x/crypto/ssh] and [github.com/gliderlabs/ssh]: public keys.
    [ParseAuthorizedKey] returns the key, its comment, its options and the
    rest of the input. *)
Class SSHKeys : Type := {
  PublicKey : Type;
  ParsePublicKey : list byte -> result PublicKey;
  ParseAuthorizedKey :
    list byte -> result (PublicKey * string * list string * list byte);
  KeysEqual : PublicKey -> PublicKey -> bool
}.

(** [github.com/juju/utils/v3/ssh]. *)
Class KeyFiles : Type := {
  SplitAuthorisedKeys : string -> list string
}.

(** [params.SSHPKIAuthArgs]. *)
Record SSHPKIAuthArgs : Type := {
  argUserTag : string;
  argPublicKey : list byte
}.

(** [config.Config] and [state.Model], as far as the facade uses them. *)
Record ModelConfig : Type := {
  AuthorizedKeys : string
}.

Record Model : Type := {
  Config : result ModelConfig
}.

Section Facade.

Context {names : Names} {keys : SSHKeys} {keyfiles : KeyFiles}.

(** [SystemState]: the interface of the facade on the controller state. *)
Record SystemState : Type := {
  ModelUUIDsForUser : UserTag -> result (list string)
}.

(** [StatePool]: [GetModel] is what the facade's interface asks for,
    [PoolSystemState] is the method [NewExternalFacade] calls on the pool
    of the context. *)
Record StatePool : Type := {
  GetModel : string -> result Model;
  PoolSystemState : result SystemState
}.

Record Facade : Type := {
  systemState : SystemState;
  statePool : StatePool
}.

(** *** The call log *)

Inductive Event : Type :=
| EvModelUUIDsForUser (user : UserTag)
| EvGetModel (uuid : string)
| EvModelConfig (uuid : string)
| EvRelease (uuid : string)
| EvParseAuthorizedKey (authKey : string).

Definition Call (A : Type) : Type := (list Event * A)%type.

Definition ret {A : Type} (a : A) : Call A := ([], a).

Definition bind {A B : Type} (m : Call A) (f : A -> Call B) : Call B :=
  let (l1, a) := m in
  let (l2, b) := f a in
  (l1 ++ l2, b).

Definition emit (e : Event) : Call unit := ([e], tt).

Definition calls {A : Type} (m : Call A) : list Event := fst m.
Definition value {A : Type} (m : Call A) : A := snd m.

Declare Scope call_scope.
Delimit Scope call_scope with call.
Notation "x <- c1 ;; c2" := (bind c1 (fun x => c2))
  (at level 61, c1 at next level, right associativity) : call_scope.
Notation "c1 ;; c2" := (bind c1 (fun _ => c2))
  (at level 61, right associativity) : call_scope.
Local Open Scope call_scope.

(** *** facade.go *)

(** [authorizedKeysPerModel]: the deferred [p.Release()] runs when the
    function returns, after [model.Config()], whatever its result. *)
Definition authorizedKeysPerModel (f : Facade) (uuid : string)
  : Call (result (list string)) :=
  emit (EvGetModel uuid) ;;
  match GetModel (statePool f) uuid with
  | Err err => ret (Err (Trace err))
  | Ok model =>
      emit (EvModelConfig uuid) ;;
      match Config model with
      | Err err => emit (EvRelease uuid) ;; ret (Err (Trace err))
      | Ok cfg =>
          let keys := SplitAuthorisedKeys (AuthorizedKeys cfg) in
          emit (EvRelease uuid) ;; ret (Ok keys)
      end
  end.

(** The inner loop of [PublicKeyAuthentication]: [true] when the loop leaves
    the function with [return nil], [false] when it runs to its end. *)
Fixpoint scanAuthKeys (publicKey : PublicKey) (authKeys : list string)
  : Call bool :=
  match authKeys with
  | [] => ret false
  | authKey :: rest =>
      emit (EvParseAuthorizedKey authKey) ;;
      match ParseAuthorizedKey (list_byte_of_string authKey) with
      | Err _ => scanAuthKeys publicKey rest
      | Ok (pubKey, _, _, _) =>
          if KeysEqual publicKey pubKey then ret true
          else scanAuthKeys publicKey rest
      end
  end.

(** The outer loop of [PublicKeyAuthentication] with the statement after
    it. *)
Fixpoint scanModels (f : Facade) (publicKey : PublicKey)
  (modelUUIDs : list string) : Call (option error) :=
  match modelUUIDs with
  | [] => ret (Some (NotFoundf "matching public key not found"))
  | uuid :: rest =>
      r <- authorizedKeysPerModel f uuid ;;
      match r with
      | Err err =>
          ret (Some (Errorf ("failed to get authorized key for model: "
                             ++ Error err)))
      | Ok authKeys =>
          found <- scanAuthKeys publicKey authKeys ;;
          if found then ret None else scanModels f publicKey rest
      end
  end.

Definition PublicKeyAuthentication (f : Facade) (sshPKIAuthArgs : SSHPKIAuthArgs)
  : Call (option error) :=
  match ParseUserTag (argUserTag sshPKIAuthArgs) with
  | Err err => ret (Some (Errorf ("failed to parse user tag: " ++ Error err)))
  | Ok userTag =>
      match ParsePublicKey (argPublicKey sshPKIAuthArgs) with
      | Err err =>
          ret (Some (Errorf ("failed to parse public key: " ++ Error err)))
      | Ok publicKey =>
          emit (EvModelUUIDsForUser userTag) ;;
          match ModelUUIDsForUser (systemState f) userTag with
          | Err err =>
              ret (Some (Errorf ("failed to get model uuids for user: "
                                 ++ Error err)))
          | Ok modelUUIDs => scanModels f publicKey modelUUIDs
          end
      end
  end.

End Facade.

(** ** Vocabulary of the statements *)

Section Vocabulary.

Context {names : Names} {keys : SSHKeys} {keyfiles : KeyFiles}.

(** The outcome and the calls of fetching the keys of one model. *)
Definition fetch (f : Facade) (uuid : string) : result (list string) :=
  value (authorizedKeysPerModel f uuid).

Definition fetchCalls (f : Facade) (uuid : string) : list Event :=
  calls (authorizedKeysPerModel f uuid).

(** The stored entry [authKey] parses, and its key equals [publicKey]
    under [KeysEqual]. *)
Definition matchesEntry (publicKey : PublicKey) (authKey : string) : bool :=
  match ParseAuthorizedKey (list_byte_of_string authKey) with
  | Ok (pubKey, _, _, _) => KeysEqual publicKey pubKey
  | Err _ => false
  end.

Definition parseable (authKey : string) : bool :=
  isOk (ParseAuthorizedKey (list_byte_of_string authKey)).

(** The entries of a list up to its first matching entry, that entry
    included. *)
Fixpoint examined (publicKey : PublicKey) (authKeys : list string)
  : list string :=
  match authKeys with
  | [] => []
  | authKey :: rest =>
      authKey :: (if matchesEntry publicKey authKey then []
                  else examined publicKey rest)
  end.

(** The model [uuid] can be fetched and [publicKey] equals one of its
    entries. *)
Definition authorizedOn (f : Facade) (publicKey : PublicKey) (uuid : string)
  : Prop :=
  exists authKeys authKey,
    fetch f uuid = Ok authKeys /\ In authKey authKeys
    /\ matchesEntry publicKey authKey = true.

(** The model [uuid] can be fetched and [publicKey] equals none of its
    entries. *)
Definition unauthorizedOn (f : Facade) (publicKey : PublicKey) (uuid : string)
  : Prop :=
  exists authKeys,
    fetch f uuid = Ok authKeys
    /\ forall authKey, In authKey authKeys ->
                       matchesEntry publicKey authKey = false.

(** The calls of a scan that goes through all of the model [uuid]. *)
Definition modelCalls (f : Facade) (uuid : string) : list Event :=
  fetchCalls f uuid
  ++ match fetch f uuid with
     | Ok authKeys => map EvParseAuthorizedKey authKeys
     | Err _ => []
     end.

(** The outcome is the not-found error of an exhausted scan. *)
Definition notFound (r : option error) : Prop :=
  exists err, r = Some err /\ IsNotFound err = true.

End Vocabulary.

(** ** register.go *)

Section Registration.

Context {names : Names} {keys : SSHKeys} {keyfiles : KeyFiles}.

(** [facade.Authorizer] and [facade.Context], as far as [NewExternalFacade]
    reads them. *)
Record Authorizer : Type := {
  AuthController : bool
}.

Record Context : Type := {
  Auth : Authorizer;
  CtxStatePool : StatePool
}.

(** [NewFacade].  The [resources] field of the facade, which only
    [WatchControllerConfig] uses, is left out of the embedding. *)
Definition NewFacade (ctx : Context) (pool : StatePool) (st : SystemState)
  : Facade :=
  {| systemState := st; statePool := pool |}.

Definition NewExternalFacade (ctx : Context) : result Facade :=
  let authorizer := Auth ctx in
  if negb (AuthController authorizer) then Err ErrPerm
  else
    let pool := CtxStatePool ctx in
    match PoolSystemState pool with
    | Err err => Err (Trace err)
    | Ok st => Ok (NewFacade ctx pool st)
    end.

(** Modelled from the spec: [facade.FacadeRegistry], which lies outside the
    package.  A registry maps a facade name and version to a factory;
    an RPC method of a facade is run on the value the factory returns for
    the context of the caller, and the call fails with the factory's error
    when there is none. *)
Record Registration : Type := {
  facadeName : string;
  facadeVersion : nat;
  factory : Context -> result Facade
}.

Definition FacadeRegistry : Type := list Registration.

(** Modelled from the spec: [registry.MustRegister] adds the factory under
    the name and the version. *)
Definition MustRegister (registry : FacadeRegistry) (name : string)
  (version : nat) (fac : Context -> result Facade) : FacadeRegistry :=
  registry ++ [{| facadeName := name; facadeVersion := version;
                  factory := fac |}].

Definition Register (registry : FacadeRegistry) : FacadeRegistry :=
  MustRegister registry "SSHServer" 1 (fun ctx => NewExternalFacade ctx).

(** Modelled from the spec: the factory registered first under a name and
    a version. *)
Definition lookupFactory (registry : FacadeRegistry) (name : string)
  (version : nat) : option (Context -> result Facade) :=
  option_map factory
    (find (fun r => String.eqb (facadeName r) name
                    && Nat.eqb (facadeVersion r) version) registry).

(** The RPC methods of the facade. *)
Inductive Method : Type :=
| MControllerConfig
| MWatchControllerConfig
| MSSHServerHostKey
| MPublicKeyAuthentication (sshPKIAuthArgs : SSHPKIAuthArgs).

(** Modelled from the spec: what a caller with context [ctx] reaches when it
    calls [method] of the facade [name], [version]: the facade the method
    runs on, or the error of the factory. *)
Definition reach (registry : FacadeRegistry) (name : string) (version : nat)
  (ctx : Context) (method : Method) : option (result (Facade * Method)) :=
  match lookupFactory registry name version with
  | None => None
  | Some fac =>
      match fac ctx with
      | Err err => Some (Err err)
      | Ok f => Some (Ok (f, method))
      end
  end.

End Registration.

(** ** The worker: [internal/worker/sshserver] *)

Module Worker.

Definition newline : string := String (ascii_of_nat 10) EmptyString.

Section Config.

Variables LoggerT ListenerT : Type.

(** The capability the worker authorises keys with: the method
    [PublicKeyAuthentication] of its [FacadeClient], which the test-suite
    mocks. *)
Definition FacadeClientT : Type := SSHPKIAuthArgs -> option error.

(** [ServerWorkerConfig], with the fields the test-suite sets; a [nil]
    interface value is [None] and the unset host key is the empty string. *)
Record ServerWorkerConfig : Type := {
  Logger : option LoggerT;
  Listener : option ListenerT;
  JumpHostKey : string;
  FacadeClient : option FacadeClientT
}.

(** Modelled from the spec: [ServerWorkerConfig.Validate], of which only
    the test is embedded from source.  It fails with a not-valid error when
    the host key, the listener or the authorization client is unset; the
    logger is checked as well, as the case [Test no Logger] of
    [TestValidate] expects.  The texts of the messages are not fixed by the
    spec. *)
Definition Validate (c : ServerWorkerConfig) : option error :=
  match Logger c with
  | None => Some (NotValidf "Logger is required")
  | Some _ =>
      if String.eqb (JumpHostKey c) "" then
        Some (NotValidf "JumpHostKey is required")
      else
        match Listener c with
        | None => Some (NotValidf "Listener is required")
        | Some _ =>
            match FacadeClient c with
            | None => Some (NotValidf "FacadeClient is required")
            | Some _ => None
            end
        end
  end.

(** [newServerWorkerConfig] of the test-suite. *)
Definition newServerWorkerConfig (l : option LoggerT) (j : string)
  (modifier : ServerWorkerConfig -> ServerWorkerConfig) : ServerWorkerConfig :=
  modifier {| Logger := l; Listener := None; JumpHostKey := j;
              FacadeClient := None |}.

End Config.

(** *** The terminating hop *)

(** Modelled from the spec: the destination descriptor parsed from the host
    of a [direct-tcpip] request. *)
Record Destination : Type := {
  unitNumber : N;
  applicationName : string;
  modelID : string;
  port : N
}.

(** Modelled from the spec: the fixed domain suffix; [TestSSHServer] dials
    a host under [juju.local]. *)
Definition domainSuffix : string := "juju.local".

(** The decimal numeral of a unit number. *)
Definition decimal (n : N) : string := NilZero.string_of_uint (N.to_uint n).

(** Modelled from the spec: the host of a destination,
    [<unitNumber>.<applicationName>.<modelID>.<fixed-domain-suffix>]. *)
Definition hostname (d : Destination) : string :=
  decimal (unitNumber d) ++ "." ++ applicationName d ++ "."
  ++ modelID d ++ "." ++ domainSuffix.

(** Modelled from the spec: the acknowledgement of the terminating hop,
    [Your final destination is: <host> as user: <user>\n]. *)
Definition acknowledgement (d : Destination) (user : string) : string :=
  "Your final destination is: " ++ hostname d ++ " as user: " ++ user
  ++ newline.

(** Modelled from the spec: what a session handler does to its session. *)
Inductive SessionAction : Type :=
| SendOutput (s : string)
| CloseSession
| CloseChannel.

(** Modelled from the spec: the session as the client sees it, that is the
    output received so far and whether the session and its channel are
    closed.  Nothing is delivered once the session is closed. *)
Record Session : Type := {
  output : string;
  sessionClosed : bool;
  channelClosed : bool
}.

Definition openSession : Session :=
  {| output := ""; sessionClosed := false; channelClosed := false |}.

Definition step (s : Session) (a : SessionAction) : Session :=
  match a with
  | SendOutput o =>
      if sessionClosed s || channelClosed s then s
      else {| output := output s ++ o; sessionClosed := false;
              channelClosed := false |}
  | CloseSession =>
      {| output := output s; sessionClosed := true;
         channelClosed := channelClosed s |}
  | CloseChannel =>
      {| output := output s; sessionClosed := true; channelClosed := true |}
  end.

Definition run (acts : list SessionAction) : Session :=
  fold_left step acts openSession.

(** Modelled from the spec: the session handler of the terminating hop.
    Whatever the command, it writes the acknowledgement, then closes the
    session and the channel. *)
Definition sessionHandler (d : Destination) (user : string) (command : string)
  : list SessionAction :=
  [SendOutput (acknowledgement d user); CloseSession; CloseChannel].

(** Modelled from the spec: the public-key callback of the terminating hop.
    It hands the user and the offered key to the authorization client; a
    [nil] answer grants the key, any error denies it. *)
Definition publicKeyHandler (client : FacadeClientT) (user : string)
  (key : list byte) : bool :=
  match client {| argUserTag := user; argPublicKey := key |} with
  | None => true
  | Some _ => false
  end.

(** Modelled from the spec: what a client offers during the handshake, and
    how the handshake ends. *)
Inductive AuthMethod : Type :=
| OfferPublicKey (key : list byte)
| OfferPassword (password : string).

Inductive Handshake : Type :=
| Authenticated (key : list byte)
| UnableToAuthenticate.

(** Modelled from the spec: the authentication of the terminating
    handshake.  The transport tries the offers of the client in order;
    passwords are rejected outright, a denied key leaves the remaining
    offers to be tried, and the handshake fails when they are exhausted. *)
Fixpoint authenticate (client : FacadeClientT) (user : string)
  (offers : list AuthMethod) : Handshake :=
  match offers with
  | [] => UnableToAuthenticate
  | OfferPassword _ :: rest => authenticate client user rest
  | OfferPublicKey key :: rest =>
      if publicKeyHandler client user key then Authenticated key
      else authenticate client user rest
  end.

(** Modelled from the spec: the error of [ssh.NewClientConn] on the client
    side, with the text [TestSSHPublicKeyHandler] matches. *)
Definition handshakeError (h : Handshake) : option string :=
  match h with
  | Authenticated _ => None
  | UnableToAuthenticate =>
      Some "ssh: handshake failed: ssh: unable to authenticate"
  end.

(** Modelled from the spec: the terminating hop as a whole, one session
    after a successful handshake and none otherwise. *)
Definition terminatingHop (client : FacadeClientT) (d : Destination)
  (user : string) (offers : list AuthMethod) (command : string)
  : option Session :=
  match authenticate client user offers with
  | Authenticated _ => Some (run (sessionHandler d user command))
  | UnableToAuthenticate => None
  end.

End Worker.

(** ** The calls of the facade as a protocol *)

Section Protocol.

Context {names : Names}.

(** The pool hands out the model [uuid]: [GetModel] returns it without
    an error. *)
Definition handedOut (f : Facade) (uuid : string) : bool :=
  isOk (GetModel (statePool f) uuid).

(** Where a call of [PublicKeyAuthentication] stands: nothing is called
    yet; the models are listed and no model is held; the pool has handed out
    a model, which is held; [Config] is called on the held model, which
    waits for its release; the pool has refused a model. *)
Inductive Phase : Type :=
| Start
| Scanning
| Obtained (uuid : string)
| Configured (uuid : string)
| Refused (uuid : string)
| Violation.

(** The calls a phase allows.  What [GetModel] leads to is decided by the
    answer of the pool of the facade; after a refusal no call is allowed. *)
Definition phaseStep (f : Facade) (p : Phase) (e : Event) : Phase :=
  match p, e with
  | Start, EvModelUUIDsForUser _ => Scanning
  | Scanning, EvGetModel uuid =>
      if handedOut f uuid then Obtained uuid else Refused uuid
  | Scanning, EvParseAuthorizedKey _ => Scanning
  | Obtained uuid, EvModelConfig uuid' =>
      if String.eqb uuid uuid' then Configured uuid else Violation
  | Configured uuid, EvRelease uuid' =>
      if String.eqb uuid uuid' then Scanning else Violation
  | _, _ => Violation
  end.

Definition phaseAfter (f : Facade) (p : Phase) (log : list Event) : Phase :=
  fold_left (phaseStep f) log p.

(** A log conforms when every call in it is allowed and it ends with no
    model held: before the listing, between two models, or on a refusal of
    the pool. *)
Definition conforms (f : Facade) (log : list Event) : bool :=
  match phaseAfter f Start log with
  | Start | Scanning | Refused _ => true
  | Obtained _ | Configured _ | Violation => false
  end.

(** A call of [GetModel] that hands out a model. *)
Definition isHandOut (f : Facade) (e : Event) : bool :=
  match e with EvGetModel uuid => handedOut f uuid | _ => false end.

Definition isGetModel (e : Event) : bool :=
  match e with EvGetModel _ => true | _ => false end.

Definition isModelConfig (e : Event) : bool :=
  match e with EvModelConfig _ => true | _ => false end.

Definition isRelease (e : Event) : bool :=
  match e with EvRelease _ => true | _ => false end.

Definition isListing (e : Event) : bool :=
  match e with EvModelUUIDsForUser _ => true | _ => false end.

Definition isParse (e : Event) : bool :=
  match e with EvParseAuthorizedKey _ => true | _ => false end.

Definition count (p : Event -> bool) (log : list Event) : nat :=
  length (filter p log).

(** The number of models held in a phase, and the number of held models
    whose configuration is still to be read. *)
Definition heldIn (p : Phase) : nat :=
  match p with Obtained _ | Configured _ => 1 | _ => 0 end.

Definition unreadIn (p : Phase) : nat :=
  match p with Obtained _ => 1 | _ => 0 end.

(** A phase holds only a model the pool handed out. *)
Definition heldHandedOut (f : Facade) (p : Phase) : Prop :=
  match p with
  | Obtained uuid | Configured uuid => handedOut f uuid = true
  | _ => True
  end.

(** The calls of [GetModel] for one model, and the parses of one entry. *)
Definition isGetModelOf (uuid : string) (e : Event) : bool :=
  match e with EvGetModel u => String.eqb u uuid | _ => false end.

Definition isParseOf (authKey : string) (e : Event) : bool :=
  match e with EvParseAuthorizedKey k => String.eqb k authKey | _ => false end.

End Protocol.

Section ScanVocabulary.

Context {names : Names} {keys : SSHKeys} {keyfiles : KeyFiles}.

(** The entries of a model, none when they cannot be fetched. *)
Definition keysOf (f : Facade) (uuid : string) : list string :=
  match fetch f uuid with
  | Ok authKeys => authKeys
  | Err _ => []
  end.

(** The model can be fetched and one of its entries matches. *)
Definition modelMatches (f : Facade) (publicKey : PublicKey) (uuid : string)
  : bool :=
  existsb (matchesEntry publicKey) (keysOf f uuid).

End ScanVocabulary.

(** ** The host key of the facade, and the client of the facade *)

(** [params.StringResult] and [params.ErrorResult]; their field [Error], a
    [*params.Error], is an error value. *)
Module Params.

Record StringResult : Type := {
  StringError : option error;
  Result : string
}.

Record ErrorResult : Type := {
  ResultError : option error
}.

End Params.

Module HostKey.

Import Params.

(** The method [SSHServerHostKey] of the [SystemState] interface, which the
    record [SystemState] of the key check leaves out; it returns a key and
    an error. *)
Record HostKeyState : Type := {
  SSHServerHostKey : string * option error
}.

Section Facade.

(** [apiservererrors.ServerError], applied to an error that is not [nil]. *)
Variable ServerError : error -> error.

(** [Facade.SSHServerHostKey], with the system state of the facade as its
    argument. *)
Definition FacadeSSHServerHostKey (systemState : HostKeyState)
  : StringResult * option error :=
  let result := {| StringError := None; Result := "" |} in
  let (key, err) := SSHServerHostKey systemState in
  let result :=
    match err with
    | Some err => {| StringError := Some (ServerError err);
                     Result := Result result |}
    | None => result
    end in
  let result := {| StringError := StringError result; Result := key |} in
  (result, None).

End Facade.

End HostKey.

(** The client of the facade, [Client] with its methods. *)
Module Client.

Import Params.

(** [base.FacadeCaller], as far as the client uses it.  [FacadeCall] decodes
    the answer into the result of the caller, which starts as the zero
    value; each field is [FacadeCall] at one type of result and gives the
    error of the call with the result as the call leaves it. *)
Record FacadeCaller : Type := {
  FacadeCallString : string -> option error * StringResult;
  FacadeCallError : string -> SSHPKIAuthArgs -> option error * ErrorResult
}.

(** [Client]; the embedded [ControllerConfigAPI] is left out. *)
Record Client : Type := {
  facade : FacadeCaller
}.

Definition SSHServerHostKey (c : Client) : string * option error :=
  let (err, result) := FacadeCallString (facade c) "SSHServerHostKey" in
  match err with
  | Some err => ("", Some err)
  | None =>
      match StringError result with
      | Some err => ("", Some err)
      | None => (Result result, None)
      end
  end.

Definition PublicKeyAuthentication (c : Client)
  (sshPKIAuthArgs : SSHPKIAuthArgs) : option error :=
  let (err, result) :=
    FacadeCallError (facade c) "PublicKeyAuthentication" sshPKIAuthArgs in
  match err with
  | Some err => Some err
  | None =>
      match ResultError result with
      | Some err => Some err
      | None => None
      end
  end.

End Client.

(** ** A small controller to run the facade on *)

Module Fixture.

(** Lines of a text, without the empty ones and the comments. *)
Fixpoint splitOn (sep : ascii) (s : string) (line : string) : list string :=
  match s with
  | EmptyString => [line]
  | String c rest =>
      if Ascii.eqb c sep then line :: splitOn sep rest ""
      else splitOn sep rest (line ++ String c EmptyString)
  end.

Definition keepLine (l : string) : bool :=
  match l with
  | EmptyString => false
  | String c _ => negb (Ascii.eqb c "#"%char)
  end.

#[export] Instance keyfiles : KeyFiles := {|
  SplitAuthorisedKeys := fun keyData =>
    filter keepLine (splitOn (ascii_of_nat 10) keyData "")
|}.

(** User tags are [user-<name>]. *)
#[export] Instance names : Names := {|
  UserTag := string;
  ParseUserTag := fun s =>
    if prefix "user-" s then Ok (substring 5 (String.length s - 5) s)
    else Err (Raw "not a valid user tag" false)
|}.

(** A public key is its wire encoding; an authorized-keys entry reads
    [ssh-rsa <key> <comment>]. *)
Definition bytesEqual (a b : list byte) : bool :=
  if list_eq_dec byte_eq_dec a b then true else false.

Definition parseEntry (b : list byte)
  : result (list byte * string * list string * list byte) :=
  let s := string_of_list_byte b in
  if prefix "ssh-rsa " s then
    match splitOn " "%char (substring 8 (String.length s - 8) s) "" with
    | key :: comment =>
        if String.eqb key "" then Err (Raw "ssh: no key found" false)
        else Ok (list_byte_of_string key, String.concat " " comment, [], [])
    | [] => Err (Raw "ssh: no key found" false)
    end
  else Err (Raw "ssh: no key found" false).

#[export] Instance keys : SSHKeys := {|
  PublicKey := list byte;
  ParsePublicKey := fun b =>
    match b with
    | [] => Err (Raw "ssh: short read" false)
    | _ => Ok b
    end;
  ParseAuthorizedKey := parseEntry;
  KeysEqual := bytesEqual
|}.

Definition nl : string := Worker.newline.

(** Four models: [m1] stores a malformed entry and two keys, [m2] stores
    one key, [gone] is not in the pool and the configuration of [broken]
    cannot be read. *)
Definition pool : StatePool := {|
  GetModel := fun uuid =>
    if String.eqb uuid "m1" then
      Ok {| Config := Ok {| AuthorizedKeys :=
              "not-a-key" ++ nl ++ "ssh-rsa KEY1 alice@laptop" ++ nl
              ++ "ssh-rsa KEY3 spare" ++ nl |} |}
    else if String.eqb uuid "m2" then
      Ok {| Config := Ok {| AuthorizedKeys := "ssh-rsa KEY2 bob@desk" |} |}
    else if String.eqb uuid "broken" then
      Ok {| Config := Err (Raw "cannot read model config" false) |}
    else Err (Raw "model not found" true);
  PoolSystemState := Err (Raw "state pool closed" false)
|}.

(** [alice] reaches [m1] and [m2], [carol] reaches [gone] and then [m1],
    [erin] reaches [m2] and then [gone], [frank] reaches [m1], [broken] and
    [m2], the listing for [dave] fails and any other user, [nomodel] say,
    reaches nothing. *)
Definition state : SystemState := {|
  ModelUUIDsForUser := fun user =>
    if String.eqb user "alice" then Ok ["m1"; "m2"]
    else if String.eqb user "carol" then Ok ["gone"; "m1"]
    else if String.eqb user "erin" then Ok ["m2"; "gone"]
    else if String.eqb user "frank" then Ok ["m1"; "broken"; "m2"]
    else if String.eqb user "dave" then Err (Raw "user not found" true)
    else Ok []
|}.

Definition facade : Facade := {| systemState := state; statePool := pool |}.

Definition KEY1 : list byte := list_byte_of_string "KEY1".
Definition KEY2 : list byte := list_byte_of_string "KEY2".

Definition args (tag : string) (key : list byte) : SSHPKIAuthArgs :=
  {| argUserTag := tag; argPublicKey := key |}.

Definition authorize (tag : string) (key : list byte)
  : Call (option error) :=
  PublicKeyAuthentication facade (args tag key).

(** The authorization client of [TestSSHPublicKeyHandler]. *)
Definition contains (needle s : string) : bool :=
  existsb (fun i => prefix needle (substring i (String.length s - i) s))
          (seq 0 (S (String.length s))).

Definition aliceOnly : Worker.FacadeClientT :=
  fun sshPKIAuthArgs =>
    if contains "alice" (argUserTag sshPKIAuthArgs) then None
    else Some (Raw "not found" true).

(** A controller whose state pool is closed. *)
Definition closedPool : Context :=
  {| Auth := {| AuthController := true |}; CtxStatePool := pool |}.

(** A caller that is not a controller. *)
Definition userCaller : Context :=
  {| Auth := {| AuthController := false |}; CtxStatePool := pool |}.

(** A controller whose state pool yields the system state. *)
Definition openPool : StatePool :=
  {| GetModel := GetModel pool; PoolSystemState := Ok state |}.

Definition controllerCaller : Context :=
  {| Auth := {| AuthController := true |}; CtxStatePool := openPool |}.

(** A second controller for [alice]: the models in another order, one of
    them twice, and the entries of [m1] in another order, one of them
    twice. *)
Definition pool2 : StatePool := {|
  GetModel := fun uuid =>
    if String.eqb uuid "m1" then
      Ok {| Config := Ok {| AuthorizedKeys :=
              "ssh-rsa KEY3 spare" ++ nl ++ "ssh-rsa KEY1 alice@laptop" ++ nl
              ++ "not-a-key" ++ nl ++ "ssh-rsa KEY3 spare" |} |}
    else GetModel pool uuid;
  PoolSystemState := PoolSystemState pool
|}.

Definition state2 : SystemState := {|
  ModelUUIDsForUser := fun user =>
    if String.eqb user "alice" then Ok ["m2"; "m1"; "m2"]
    else ModelUUIDsForUser state user
|}.

Definition facade2 : Facade := {| systemState := state2; statePool := pool2 |}.

(** A third one, over the first pool, in which [alice] reaches [gone] as
    well, behind her other models. *)
Definition state3 : SystemState := {|
  ModelUUIDsForUser := fun user =>
    if String.eqb user "alice" then Ok (["m1"; "m2"] ++ ["gone"])
    else ModelUUIDsForUser state user
|}.

Definition facade3 : Facade := {| systemState := state3; statePool := pool |}.

(** A conversion of errors for the wire, and a system state whose host key
    comes with an error. *)
Definition serverError (err : error) : error := Raw (Error err) false.

Definition staleHostKey : HostKey.HostKeyState :=
  {| HostKey.SSHServerHostKey := ("stale", Some (Raw "host key expired" false)) |}.

(** A caller that runs the methods of the facade in place: the error a
    method returns is the error of the call. *)
Definition inPlace : Client.FacadeCaller := {|
  Client.FacadeCallString := fun _ =>
    let r := HostKey.FacadeSSHServerHostKey serverError staleHostKey in
    (snd r, fst r);
  Client.FacadeCallError := fun _ sshPKIAuthArgs =>
    (value (PublicKeyAuthentication facade sshPKIAuthArgs),
     {| Params.ResultError := None |})
|}.

Definition client : Client.Client := {| Client.facade := inPlace |}.

End Fixture.

(** * Properties *)

(** The user without models of [TestAuthorizedKeysPerUser], with the message
    that test expects, and a user whose key is found before a model that
    cannot be fetched. *)
Example fixture_runs :
  Fixture.authorize "user-nomodel" Fixture.KEY1
  = ([@EvModelUUIDsForUser Fixture.names "nomodel"],
     Some (NotFoundf "matching public key not found"))
  /\ Error (NotFoundf "matching public key not found")
     = "matching public key not found not found"
  /\ Fixture.authorize "user-erin" Fixture.KEY2
     = ([@EvModelUUIDsForUser Fixture.names "erin"; EvGetModel "m2";
         EvModelConfig "m2"; EvRelease "m2";
         EvParseAuthorizedKey "ssh-rsa KEY2 bob@desk"], None).
Proof. repeat split. Qed.

Example fixture_alice :
  Fixture.authorize "user-alice" Fixture.KEY2
  = ([@EvModelUUIDsForUser Fixture.names "alice"; EvGetModel "m1"; EvModelConfig "m1";
      EvRelease "m1"; EvParseAuthorizedKey "not-a-key";
      EvParseAuthorizedKey "ssh-rsa KEY1 alice@laptop";
      EvParseAuthorizedKey "ssh-rsa KEY3 spare";
      EvGetModel "m2"; EvModelConfig "m2"; EvRelease "m2";
      EvParseAuthorizedKey "ssh-rsa KEY2 bob@desk"], None).
Proof. vm_compute. reflexivity. Qed.

(** ** The call log *)

Section CallLog.

Context {names : Names}.

Lemma call_eta (A : Type) (m : Call A) : m = (calls m, value m).
Proof. destruct m. reflexivity. Qed.

End CallLog.

(** ** The scan of [PublicKeyAuthentication] *)

Section Scan.

Context {names : Names} {keys : SSHKeys} {keyfiles : KeyFiles}.

Variable f : Facade.
Variable publicKey : PublicKey.

Lemma matchesEntry_parse (authKey : string) :
  matchesEntry publicKey authKey = true <->
  exists pubKey comment options rest,
    ParseAuthorizedKey (list_byte_of_string authKey)
    = Ok (pubKey, comment, options, rest)
    /\ KeysEqual publicKey pubKey = true.
Proof.
  unfold matchesEntry. split.
  - destruct (ParseAuthorizedKey (list_byte_of_string authKey))
      as [[[[pk c] o] r] | e]; [| discriminate].
    intros H. exists pk, c, o, r. split; [reflexivity | exact H].
  - intros (pk & c & o & r & Hp & He). rewrite Hp. exact He.
Qed.

Lemma matchesEntry_unparseable (authKey : string) :
  parseable authKey = false -> matchesEntry publicKey authKey = false.
Proof.
  unfold parseable, matchesEntry.
  destruct (ParseAuthorizedKey (list_byte_of_string authKey)); simpl;
    [discriminate | reflexivity].
Qed.

(** One turn of the inner loop. *)
Lemma scanAuthKeys_cons (authKey : string) (rest : list string) :
  scanAuthKeys publicKey (authKey :: rest)
  = if matchesEntry publicKey authKey
    then ([EvParseAuthorizedKey authKey], true)
    else (EvParseAuthorizedKey authKey :: calls (scanAuthKeys publicKey rest),
          value (scanAuthKeys publicKey rest)).
Proof.
  unfold matchesEntry. simpl.
  destruct (ParseAuthorizedKey (list_byte_of_string authKey))
    as [[[[pk c] o] r] | e].
  - destruct (KeysEqual publicKey pk); [reflexivity |].
    destruct (scanAuthKeys publicKey rest); reflexivity.
  - destruct (scanAuthKeys publicKey rest); reflexivity.
Qed.

Lemma scanAuthKeys_spec (authKeys : list string) :
  scanAuthKeys publicKey authKeys
  = (map EvParseAuthorizedKey (examined publicKey authKeys),
     existsb (matchesEntry publicKey) authKeys).
Proof.
  induction authKeys as [| a rest IH]; [reflexivity |].
  rewrite scanAuthKeys_cons, IH. cbn [examined existsb map].
  destruct (matchesEntry publicKey a); reflexivity.
Qed.

Lemma examined_no_match (authKeys : list string) :
  existsb (matchesEntry publicKey) authKeys = false ->
  examined publicKey authKeys = authKeys.
Proof.
  induction authKeys as [| a rest IH]; [reflexivity |].
  cbn [existsb examined]. intros H. apply orb_false_iff in H as [Ha Hr].
  rewrite Ha, (IH Hr). reflexivity.
Qed.

Lemma examined_first_match (before : list string) (authKey : string)
  (after : list string) :
  existsb (matchesEntry publicKey) before = false ->
  matchesEntry publicKey authKey = true ->
  examined publicKey (before ++ authKey :: after) = before ++ [authKey].
Proof.
  intros Hb Hm. induction before as [| a rest IH].
  - cbn [app examined]. rewrite Hm. reflexivity.
  - cbn [existsb] in Hb. apply orb_false_iff in Hb as [Ha Hr].
    cbn [app examined]. rewrite Ha, (IH Hr). reflexivity.
Qed.

(** One turn of the outer loop. *)
Lemma scanModels_cons (uuid : string) (rest : list string) :
  scanModels f publicKey (uuid :: rest)
  = match fetch f uuid with
    | Err err =>
        (fetchCalls f uuid,
         Some (Errorf ("failed to get authorized key for model: "
                       ++ Error err)))
    | Ok authKeys =>
        if existsb (matchesEntry publicKey) authKeys
        then (fetchCalls f uuid
              ++ map EvParseAuthorizedKey (examined publicKey authKeys), None)
        else (fetchCalls f uuid ++ map EvParseAuthorizedKey authKeys
              ++ calls (scanModels f publicKey rest),
              value (scanModels f publicKey rest))
    end.
Proof.
  unfold fetch, fetchCalls. cbn [scanModels].
  destruct (authorizedKeysPerModel f uuid) as [l [ks | e]];
    cbn [bind calls value fst snd ret].
  - rewrite scanAuthKeys_spec.
    destruct (existsb (matchesEntry publicKey) ks) eqn:E.
    + cbn [bind ret]. rewrite app_nil_r. reflexivity.
    + rewrite (examined_no_match _ E). cbn [bind].
      destruct (scanModels f publicKey rest). reflexivity.
  - rewrite app_nil_r. reflexivity.
Qed.

Lemma fetch_unfold (uuid : string) :
  fetch f uuid
  = match GetModel (statePool f) uuid with
    | Err err => Err (Trace err)
    | Ok model =>
        match Config model with
        | Err err => Err (Trace err)
        | Ok cfg => Ok (SplitAuthorisedKeys (AuthorizedKeys cfg))
        end
    end.
Proof.
  unfold fetch, authorizedKeysPerModel.
  destruct (GetModel (statePool f) uuid) as [m | e]; [| reflexivity].
  destruct (Config m); reflexivity.
Qed.

Lemma fetchCalls_unfold (uuid : string) :
  fetchCalls f uuid
  = match GetModel (statePool f) uuid with
    | Err _ => [EvGetModel uuid]
    | Ok _ => [EvGetModel uuid; EvModelConfig uuid; EvRelease uuid]
    end.
Proof.
  unfold fetchCalls, authorizedKeysPerModel.
  destruct (GetModel (statePool f) uuid) as [m | e]; [| reflexivity].
  destruct (Config m); reflexivity.
Qed.

Lemma unauthorizedOn_existsb (uuid : string) :
  unauthorizedOn f publicKey uuid <->
  exists authKeys, fetch f uuid = Ok authKeys
                   /\ existsb (matchesEntry publicKey) authKeys = false.
Proof.
  unfold unauthorizedOn. split; intros (ks & Hf & H); exists ks; split; auto.
  - destruct (existsb (matchesEntry publicKey) ks) eqn:E; [| reflexivity].
    apply existsb_exists in E as (a & Ha & Hm).
    rewrite (H a Ha) in Hm. discriminate.
  - intros a Ha. destruct (matchesEntry publicKey a) eqn:E; [| reflexivity].
    assert (X : existsb (matchesEntry publicKey) ks = true)
      by (apply existsb_exists; eauto).
    congruence.
Qed.

Lemma authorizedOn_existsb (uuid : string) :
  authorizedOn f publicKey uuid <->
  exists authKeys, fetch f uuid = Ok authKeys
                   /\ existsb (matchesEntry publicKey) authKeys = true.
Proof.
  unfold authorizedOn. split.
  - intros (ks & a & Hf & Ha & Hm). exists ks. split; [exact Hf |].
    apply existsb_exists. eauto.
  - intros (ks & Hf & E). apply existsb_exists in E as (a & Ha & Hm).
    exists ks, a. auto.
Qed.

(** A model without a match hands the scan on to the next one. *)
Lemma scanModels_pass (uuid : string) (rest : list string) :
  unauthorizedOn f publicKey uuid ->
  scanModels f publicKey (uuid :: rest)
  = (modelCalls f uuid ++ calls (scanModels f publicKey rest),
     value (scanModels f publicKey rest)).
Proof.
  intros H. apply unauthorizedOn_existsb in H as (ks & Hf & E).
  rewrite scanModels_cons. unfold modelCalls. rewrite Hf, E.
  rewrite <- app_assoc. reflexivity.
Qed.

Lemma scanModels_prefix (before rest : list string) :
  (forall uuid, In uuid before -> unauthorizedOn f publicKey uuid) ->
  scanModels f publicKey (before ++ rest)
  = (flat_map (modelCalls f) before ++ calls (scanModels f publicKey rest),
     value (scanModels f publicKey rest)).
Proof.
  induction before as [| u before IH]; intros H.
  - cbn [app flat_map]. apply call_eta.
  - cbn [app flat_map]. rewrite scanModels_pass by (apply H; left; reflexivity).
    rewrite IH by (intros x Hx; apply H; right; exact Hx).
    cbn [calls value fst snd]. rewrite <- app_assoc. reflexivity.
Qed.

(** The scan stops at the first entry that matches. *)
Lemma scanModels_first_match (before : list string) (uuid : string)
  (after : list string) (skipped : list string) (authKey : string)
  (unread : list string) :
  (forall u, In u before -> unauthorizedOn f publicKey u) ->
  fetch f uuid = Ok (skipped ++ authKey :: unread) ->
  existsb (matchesEntry publicKey) skipped = false ->
  matchesEntry publicKey authKey = true ->
  scanModels f publicKey (before ++ uuid :: after)
  = (flat_map (modelCalls f) before ++ fetchCalls f uuid
     ++ map EvParseAuthorizedKey (skipped ++ [authKey]), None).
Proof.
  intros Hb Hf Hs Hm. rewrite scanModels_prefix by exact Hb.
  rewrite scanModels_cons, Hf.
  assert (E : existsb (matchesEntry publicKey) (skipped ++ authKey :: unread)
              = true).
  { rewrite existsb_app. cbn [existsb]. rewrite Hm. cbn [orb].
    apply orb_true_r. }
  rewrite E, examined_first_match by assumption. reflexivity.
Qed.

(** The scan stops at the first model that cannot be fetched. *)
Lemma scanModels_fetch_failure (before : list string) (uuid : string)
  (after : list string) (err : error) :
  (forall u, In u before -> unauthorizedOn f publicKey u) ->
  fetch f uuid = Err err ->
  scanModels f publicKey (before ++ uuid :: after)
  = (flat_map (modelCalls f) before ++ fetchCalls f uuid,
     Some (Errorf ("failed to get authorized key for model: " ++ Error err))).
Proof.
  intros Hb Hf. rewrite scanModels_prefix by exact Hb.
  rewrite scanModels_cons, Hf. reflexivity.
Qed.

(** The scan that finds nothing goes through every model. *)
Lemma scanModels_exhausted (modelUUIDs : list string) :
  (forall u, In u modelUUIDs -> unauthorizedOn f publicKey u) ->
  scanModels f publicKey modelUUIDs
  = (flat_map (modelCalls f) modelUUIDs,
     Some (NotFoundf "matching public key not found")).
Proof.
  intros H. rewrite <- (app_nil_r modelUUIDs) at 1.
  rewrite scanModels_prefix by exact H. cbn. rewrite app_nil_r. reflexivity.
Qed.

(** How a scan ends: with a match, with a failed fetch, or exhausted. *)
Lemma scanModels_cases (modelUUIDs : list string) :
  (exists before uuid after,
      modelUUIDs = before ++ uuid :: after
      /\ (forall u, In u before -> unauthorizedOn f publicKey u)
      /\ authorizedOn f publicKey uuid
      /\ value (scanModels f publicKey modelUUIDs) = None)
  \/ (exists before uuid after err,
      modelUUIDs = before ++ uuid :: after
      /\ (forall u, In u before -> unauthorizedOn f publicKey u)
      /\ fetch f uuid = Err err
      /\ scanModels f publicKey modelUUIDs
         = (flat_map (modelCalls f) before ++ fetchCalls f uuid,
            Some (Errorf ("failed to get authorized key for model: "
                          ++ Error err))))
  \/ ((forall u, In u modelUUIDs -> unauthorizedOn f publicKey u)
      /\ scanModels f publicKey modelUUIDs
         = (flat_map (modelCalls f) modelUUIDs,
            Some (NotFoundf "matching public key not found"))).
Proof.
  induction modelUUIDs as [| uuid rest IH].
  - right. right. split; [intros u [] | reflexivity].
  - destruct (fetch f uuid) as [ks | err] eqn:Hf.
    + destruct (existsb (matchesEntry publicKey) ks) eqn:E.
      * left. exists [], uuid, rest.
        split; [reflexivity |]. split; [intros u [] |].
        split; [apply authorizedOn_existsb; eauto |].
        rewrite scanModels_cons, Hf, E. reflexivity.
      * assert (U : unauthorizedOn f publicKey uuid)
          by (apply unauthorizedOn_existsb; eauto).
        assert (P : forall b, (forall u, In u b -> unauthorizedOn f publicKey u)
                    -> forall u, In u (uuid :: b) -> unauthorizedOn f publicKey u).
        { intros b Hb u [<- | Hu]; auto. }
        destruct IH as [(b & m & a & -> & Hb & Ha & Hv)
                       | [(b & m & a & err & -> & Hb & He & Hs)
                         | (Hall & Hs)]].
        -- left. exists (uuid :: b), m, a.
           split; [reflexivity |]. split; [apply P; exact Hb |].
           split; [exact Ha |].
           change ((uuid :: b) ++ m :: a) with (uuid :: (b ++ m :: a)).
           rewrite scanModels_pass by exact U. exact Hv.
        -- right. left. exists (uuid :: b), m, a, err.
           split; [reflexivity |]. split; [apply P; exact Hb |].
           split; [exact He |].
           apply (@scanModels_fetch_failure (uuid :: b));
             [apply P; exact Hb | exact He].
        -- right. right. split; [apply P; exact Hall |].
           apply scanModels_exhausted. apply P. exact Hall.
    + right. left. exists [], uuid, rest, err.
      split; [reflexivity |]. split; [intros u [] |]. split; [exact Hf |].
      rewrite scanModels_cons, Hf. reflexivity.
Qed.

End Scan.

Section ScanFacts.

Context {names : Names} {keys : SSHKeys} {keyfiles : KeyFiles}.

Variable f : Facade.
Variable publicKey : PublicKey.

Lemma no_match_existsb (authKeys : list string) :
  (forall authKey, In authKey authKeys ->
                   matchesEntry publicKey authKey = false) ->
  existsb (matchesEntry publicKey) authKeys = false.
Proof.
  induction authKeys as [| a rest IH]; intros H; [reflexivity |].
  cbn [existsb]. rewrite (H a (or_introl eq_refl)). cbn [orb].
  apply IH. intros x Hx. apply H. right. exact Hx.
Qed.

Lemma unauthorizedOn_isOk (uuid : string) :
  unauthorizedOn f publicKey uuid -> isOk (fetch f uuid) = true.
Proof. intros (ks & Hf & _). rewrite Hf. reflexivity. Qed.

Lemma unauthorizedOn_not_authorizedOn (uuid : string) :
  unauthorizedOn f publicKey uuid <->
  isOk (fetch f uuid) = true /\ ~ authorizedOn f publicKey uuid.
Proof.
  split.
  - intros (ks & Hf & H). split; [rewrite Hf; reflexivity |].
    intros (ks' & a & Hf' & Ha & Hm). rewrite Hf in Hf'.
    injection Hf' as <-. rewrite (H a Ha) in Hm. discriminate.
  - intros [Hok Hn]. destruct (fetch f uuid) as [ks | e] eqn:Hf;
      [| discriminate].
    exists ks. split; [exact Hf |]. intros a Ha.
    destruct (matchesEntry publicKey a) eqn:E; [| reflexivity].
    exfalso. apply Hn. exists ks, a. auto.
Qed.

(** A match grants access as soon as the models before it can be fetched. *)
Lemma scanModels_granted (before : list string) (uuid : string)
  (after : list string) :
  (forall u, In u before -> isOk (fetch f u) = true) ->
  authorizedOn f publicKey uuid ->
  value (scanModels f publicKey (before ++ uuid :: after)) = None.
Proof.
  intros Hb Ha. induction before as [| u before IH]; cbn [app].
  - apply authorizedOn_existsb in Ha as (ks & Hf & E).
    rewrite scanModels_cons, Hf, E. reflexivity.
  - rewrite scanModels_cons.
    assert (Hu : isOk (fetch f u) = true) by (apply Hb; left; reflexivity).
    destruct (fetch f u) as [ks | e]; [| discriminate].
    destruct (existsb (matchesEntry publicKey) ks); [reflexivity |].
    apply IH. intros x Hx. apply Hb. right. exact Hx.
Qed.

Lemma In_fetchCalls (uuid u : string) :
  In (EvGetModel uuid) (fetchCalls f u) -> uuid = u.
Proof.
  rewrite fetchCalls_unfold.
  destruct (GetModel (statePool f) u); cbn [In];
    intuition (try discriminate; congruence).
Qed.

Lemma not_In_parses (uuid : string) (authKeys : list string) :
  ~ In (EvGetModel uuid) (map EvParseAuthorizedKey authKeys).
Proof.
  intros H. apply in_map_iff in H as (x & Hx & _). discriminate.
Qed.

(** A fetch that was made and failed is the end of the scan. *)
Lemma scanModels_failed_fetch (uuid : string) (err : error)
  (modelUUIDs : list string) :
  In (EvGetModel uuid) (calls (scanModels f publicKey modelUUIDs)) ->
  fetch f uuid = Err err ->
  value (scanModels f publicKey modelUUIDs)
  = Some (Errorf ("failed to get authorized key for model: " ++ Error err)).
Proof.
  intros Hin Hf. induction modelUUIDs as [| u rest IH]; [destruct Hin |].
  rewrite scanModels_cons in Hin |- *.
  destruct (fetch f u) as [ks | e] eqn:Hu.
  - assert (Hne : ~ In (EvGetModel uuid) (fetchCalls f u)).
    { intros H. apply In_fetchCalls in H. subst u. congruence. }
    destruct (existsb (matchesEntry publicKey) ks); cbn [calls value fst snd] in *.
    + apply in_app_or in Hin as [H | H]; [contradiction |].
      apply not_In_parses in H. destruct H.
    + apply in_app_or in Hin as [H | H]; [contradiction |].
      apply in_app_or in H as [H | H]; [apply not_In_parses in H; destruct H |].
      apply IH. exact H.
  - cbn [calls value fst snd] in *. apply In_fetchCalls in Hin. subst u.
    congruence.
Qed.

End ScanFacts.

(** ** [PublicKeyAuthentication] *)

Section Authentication.

Context {names : Names} {keys : SSHKeys} {keyfiles : KeyFiles}.

(** C3.  When the user tag or the public key of the arguments does not
    parse, [PublicKeyAuthentication] returns an error built by
    [errors.Errorf] whose message is [failed to parse user tag: ] or
    [failed to parse public key: ] followed by the message of the parse
    failure; that error is not a not-found error, and the call log is empty:
    no model is listed, no key is fetched. *)
Theorem PublicKeyAuthentication_parse_error (f : Facade) (a : SSHPKIAuthArgs) :
  isOk (ParseUserTag (argUserTag a)) = false
  \/ isOk (ParsePublicKey (argPublicKey a)) = false ->
  exists what err,
    PublicKeyAuthentication f a
    = ([], Some (Errorf ("failed to parse " ++ what ++ ": " ++ Error err)))
    /\ (what = "user tag" /\ ParseUserTag (argUserTag a) = Err err
        \/ what = "public key" /\ ParsePublicKey (argPublicKey a) = Err err)
    /\ IsNotFound (Errorf ("failed to parse " ++ what ++ ": " ++ Error err))
       = false
    /\ ~ notFound (value (PublicKeyAuthentication f a)).
Proof.
  intros H. unfold PublicKeyAuthentication.
  assert (N : forall msg, ~ notFound (Some (Errorf msg))).
  { intros msg (e & He & Hn). injection He as <-. discriminate. }
  destruct (ParseUserTag (argUserTag a)) as [userTag | err].
  - destruct (ParsePublicKey (argPublicKey a)) as [publicKey | err].
    + destruct H; discriminate.
    + exists "public key", err. split; [reflexivity |].
      split; [right; split; reflexivity |].
      split; [reflexivity | apply N].
  - exists "user tag", err. split; [reflexivity |].
    split; [left; split; reflexivity |].
    split; [reflexivity | apply N].
Qed.

Section WellFormed.

Variable f : Facade.
Variable a : SSHPKIAuthArgs.
Variable userTag : UserTag.
Variable publicKey : PublicKey.

Hypothesis Htag : ParseUserTag (argUserTag a) = Ok userTag.
Hypothesis Hkey : ParsePublicKey (argPublicKey a) = Ok publicKey.

Lemma PublicKeyAuthentication_scan (modelUUIDs : list string) :
  ModelUUIDsForUser (systemState f) userTag = Ok modelUUIDs ->
  PublicKeyAuthentication f a
  = (EvModelUUIDsForUser userTag :: calls (scanModels f publicKey modelUUIDs),
     value (scanModels f publicKey modelUUIDs)).
Proof.
  intros Hl. unfold PublicKeyAuthentication. rewrite Htag, Hkey, Hl.
  destruct (scanModels f publicKey modelUUIDs). reflexivity.
Qed.

Lemma PublicKeyAuthentication_listing_failure (err : error) :
  ModelUUIDsForUser (systemState f) userTag = Err err ->
  PublicKeyAuthentication f a
  = ([EvModelUUIDsForUser userTag],
     Some (Errorf ("failed to get model uuids for user: " ++ Error err))).
Proof.
  intros Hl. unfold PublicKeyAuthentication. rewrite Htag, Hkey, Hl.
  reflexivity.
Qed.

(** C1, as amended.  For a user tag and a public key that parse and a
    model listing that succeeds, [PublicKeyAuthentication] returns [nil]
    exactly when the key equals, under [KeysEqual], a parseable entry of a
    listed model before which every listed model could be fetched; it
    returns the not-found error exactly when every listed model could be
    fetched and the key equals no entry of any of them, a user without
    models included.  When every listed model can be fetched, [nil] is
    returned if and only if the key equals an entry of some listed model,
    and not-found otherwise. *)
Theorem PublicKeyAuthentication_decision (modelUUIDs : list string) :
  ModelUUIDsForUser (systemState f) userTag = Ok modelUUIDs ->
  (value (PublicKeyAuthentication f a) = None <->
   exists before uuid after,
     modelUUIDs = before ++ uuid :: after
     /\ (forall u, In u before -> isOk (fetch f u) = true)
     /\ authorizedOn f publicKey uuid)
  /\ (notFound (value (PublicKeyAuthentication f a)) <->
      forall uuid, In uuid modelUUIDs -> unauthorizedOn f publicKey uuid)
  /\ ((forall u, In u modelUUIDs -> isOk (fetch f u) = true) ->
      (value (PublicKeyAuthentication f a) = None <->
       exists uuid, In uuid modelUUIDs /\ authorizedOn f publicKey uuid)
      /\ (~ (exists uuid, In uuid modelUUIDs /\ authorizedOn f publicKey uuid)
          -> notFound (value (PublicKeyAuthentication f a)))).
Proof.
  intros Hl. rewrite (PublicKeyAuthentication_scan Hl). cbn [value snd].
  assert (G : value (scanModels f publicKey modelUUIDs) = None <->
              exists before uuid after,
                modelUUIDs = before ++ uuid :: after
                /\ (forall u, In u before -> isOk (fetch f u) = true)
                /\ authorizedOn f publicKey uuid).
  { split.
    - intros Hv.
      destruct (scanModels_cases f publicKey modelUUIDs)
        as [(b & m & r & Hm & Hb & Ha & _)
           | [(b & m & r & e & _ & _ & _ & Hs) | (_ & Hs)]].
      + exists b, m, r. split; [exact Hm |]. split; [| exact Ha].
        intros u Hu. apply unauthorizedOn_isOk with (publicKey := publicKey).
        apply Hb. exact Hu.
      + rewrite Hs in Hv. discriminate.
      + rewrite Hs in Hv. discriminate.
    - intros (b & m & r & -> & Hb & Ha). apply scanModels_granted; assumption. }
  assert (NF : notFound (value (scanModels f publicKey modelUUIDs)) <->
               forall uuid, In uuid modelUUIDs ->
                            unauthorizedOn f publicKey uuid).
  { split.
    - intros (e & He & Hn).
      destruct (scanModels_cases f publicKey modelUUIDs)
        as [(b & m & r & _ & _ & _ & Hv)
           | [(b & m & r & e' & _ & _ & _ & Hs) | (Hall & _)]].
      + rewrite Hv in He. discriminate.
      + rewrite Hs in He. injection He as <-. discriminate.
      + exact Hall.
    - intros Hall. rewrite (scanModels_exhausted _ Hall).
      eexists. split; reflexivity. }
  split; [exact G |]. split; [exact NF |].
  intros Hok. split.
  - rewrite G. split.
    + intros (b & m & r & -> & _ & Ha). exists m. split; [| exact Ha].
      apply in_or_app. right. left. reflexivity.
    + intros (m & Hin & Ha). apply in_split in Hin as (b & r & ->).
      exists b, m, r. split; [reflexivity |]. split; [| exact Ha].
      intros u Hu. apply Hok. apply in_or_app. left. exact Hu.
  - intros Hn. apply NF. intros uuid Hin.
    apply unauthorizedOn_not_authorizedOn. split; [apply Hok; exact Hin |].
    intros Ha. apply Hn. exists uuid. auto.
Qed.

(** C2.  The scan follows the listing and, inside a model, the stored
    order, and it ends at the first match: when no model before [uuid] holds
    a match and [authKey] is the first matching entry of [uuid], the call
    returns [nil] and its log is the listing, the complete scans of the
    models before [uuid], the fetch of [uuid] and the entries of [uuid] up
    to [authKey]; nothing of the entries after [authKey] or of the models
    after [uuid] is touched.  Two facades whose collaborators answer alike
    decide alike. *)
Theorem PublicKeyAuthentication_first_match
  (before : list string) (uuid : string) (after : list string)
  (skipped : list string) (authKey : string) (unread : list string) :
  ModelUUIDsForUser (systemState f) userTag = Ok (before ++ uuid :: after) ->
  (forall u, In u before -> unauthorizedOn f publicKey u) ->
  fetch f uuid = Ok (skipped ++ authKey :: unread) ->
  (forall e, In e skipped -> matchesEntry publicKey e = false) ->
  matchesEntry publicKey authKey = true ->
  PublicKeyAuthentication f a
  = (EvModelUUIDsForUser userTag
     :: flat_map (modelCalls f) before
     ++ fetchCalls f uuid
     ++ map EvParseAuthorizedKey (skipped ++ [authKey]),
     None)
  /\ (forall f' : Facade,
      (forall u, ModelUUIDsForUser (systemState f') u
                 = ModelUUIDsForUser (systemState f) u) ->
      (forall m, GetModel (statePool f') m = GetModel (statePool f) m) ->
      forall a', PublicKeyAuthentication f' a' = PublicKeyAuthentication f a').
Proof.
  intros Hl Hb Hf Hs Hm. split.
  - rewrite (PublicKeyAuthentication_scan Hl).
    assert (Hs' : existsb (matchesEntry publicKey) skipped = false)
      by (apply no_match_existsb; exact Hs).
    erewrite scanModels_first_match by eassumption. reflexivity.
  - intros f' HU HG a'. unfold PublicKeyAuthentication.
    destruct (ParseUserTag (argUserTag a')) as [u |]; [| reflexivity].
    destruct (ParsePublicKey (argPublicKey a')) as [k |]; [| reflexivity].
    assert (E : forall ms, scanModels f' k ms = scanModels f k ms).
    { induction ms as [| m ms IH]; [reflexivity |].
      cbn [scanModels]. unfold authorizedKeysPerModel. rewrite HG, IH.
      reflexivity. }
    rewrite HU. destruct (ModelUUIDsForUser (systemState f) u) as [ms |];
      [| reflexivity].
    rewrite E. reflexivity.
Qed.

Lemma fetch_failure_cause (uuid : string) (e : error) :
  GetModel (statePool f) uuid = Err e
  \/ (exists model, GetModel (statePool f) uuid = Ok model
                    /\ Config model = Err e) ->
  fetch f uuid = Err (Trace e).
Proof.
  rewrite fetch_unfold. intros [H | (m & H & Hc)]; rewrite H;
    [| rewrite Hc]; reflexivity.
Qed.

Lemma fetch_failure_inv (uuid : string) (err : error) :
  fetch f uuid = Err err ->
  exists e, err = Trace e
            /\ (GetModel (statePool f) uuid = Err e
                \/ (exists model, GetModel (statePool f) uuid = Ok model
                                  /\ Config model = Err e)).
Proof.
  rewrite fetch_unfold.
  destruct (GetModel (statePool f) uuid) as [m | e] eqn:Hg.
  - destruct (Config m) as [cfg | e] eqn:Hc; [discriminate |].
    intros H. injection H as <-. exists e. split; [reflexivity |].
    right. exists m. auto.
  - intros H. injection H as <-. exists e. auto.
Qed.

Lemma Errorf_not_notFound (msg : string) : ~ notFound (Some (Errorf msg)).
Proof. intros (e & He & Hn). injection He as <-. discriminate. Qed.

(** C4.  An entry that does not parse is passed over and the scan goes on
    with the entry after it; leaving the unparseable entries out of a list
    does not change what its scan finds.  In a model the scan reaches, a
    matching entry behind any number of unparseable entries is found: the
    call returns [nil], after looking at each of those entries in turn. *)
Theorem PublicKeyAuthentication_skips_malformed
  (before : list string) (uuid : string) (after : list string)
  (malformed : list string) (authKey : string) (unread : list string) :
  ModelUUIDsForUser (systemState f) userTag = Ok (before ++ uuid :: after) ->
  (forall u, In u before -> isOk (fetch f u) = true) ->
  fetch f uuid = Ok (malformed ++ authKey :: unread) ->
  (forall e, In e malformed -> parseable e = false) ->
  matchesEntry publicKey authKey = true ->
  value (PublicKeyAuthentication f a) = None
  /\ scanAuthKeys publicKey (malformed ++ authKey :: unread)
     = (map EvParseAuthorizedKey (malformed ++ [authKey]), true)
  /\ (forall bad rest,
      parseable bad = false ->
      scanAuthKeys publicKey (bad :: rest)
      = (EvParseAuthorizedKey bad :: calls (scanAuthKeys publicKey rest),
         value (scanAuthKeys publicKey rest)))
  /\ (forall authKeys,
      value (scanAuthKeys publicKey authKeys)
      = value (scanAuthKeys publicKey (filter parseable authKeys))).
Proof.
  intros Hl Hb Hf Hbad Hm.
  assert (Hs : existsb (matchesEntry publicKey) malformed = false).
  { apply no_match_existsb. intros e He.
    apply matchesEntry_unparseable. apply Hbad. exact He. }
  split; [| split; [| split]].
  - rewrite (PublicKeyAuthentication_scan Hl). cbn [value snd].
    apply scanModels_granted; [exact Hb |].
    exists (malformed ++ authKey :: unread), authKey.
    split; [exact Hf |]. split; [| exact Hm].
    apply in_or_app. right. left. reflexivity.
  - rewrite scanAuthKeys_spec, examined_first_match by assumption.
    rewrite existsb_app. cbn [existsb]. rewrite Hm, Hs. reflexivity.
  - intros bad rest Hp. rewrite scanAuthKeys_cons.
    rewrite (matchesEntry_unparseable publicKey bad Hp). reflexivity.
  - intros authKeys. rewrite !scanAuthKeys_spec. cbn [value snd].
    induction authKeys as [| x rest IH]; [reflexivity |].
    cbn [filter existsb]. destruct (parseable x) eqn:Hp.
    + cbn [existsb]. rewrite IH. reflexivity.
    + rewrite (matchesEntry_unparseable publicKey x Hp). exact IH.
Qed.

(** C5.  A failure of a collaborator is told apart from the not-found
    outcome.  When the listing of the models fails, the call stops after the
    listing and returns the [errors.Errorf] error whose message is
    [failed to get model uuids for user: ] followed by the message of the
    failure.  When the scan comes to a listed model that the pool does not
    hand out or whose configuration cannot be read, the call returns the
    [errors.Errorf] error whose message is
    [failed to get authorized key for model: ] followed by the message of
    that failure.  The failure is wrapped in this sense only: its message is
    embedded, and [errors.Errorf] records no cause, so that neither error is
    a not-found error, even when the failure itself is one.  The scan that
    goes through every listed model without a match returns the
    [errors.NotFoundf] error, which is a not-found error. *)
Theorem PublicKeyAuthentication_remote_failure :
  (forall e,
      ModelUUIDsForUser (systemState f) userTag = Err e ->
      PublicKeyAuthentication f a
      = ([EvModelUUIDsForUser userTag],
         Some (Errorf ("failed to get model uuids for user: " ++ Error e)))
      /\ ~ notFound (value (PublicKeyAuthentication f a)))
  /\ (forall before uuid after e,
      ModelUUIDsForUser (systemState f) userTag
      = Ok (before ++ uuid :: after) ->
      (forall u, In u before -> unauthorizedOn f publicKey u) ->
      GetModel (statePool f) uuid = Err e
      \/ (exists model, GetModel (statePool f) uuid = Ok model
                        /\ Config model = Err e) ->
      value (PublicKeyAuthentication f a)
      = Some (Errorf ("failed to get authorized key for model: " ++ Error e))
      /\ In (EvGetModel uuid) (calls (PublicKeyAuthentication f a))
      /\ ~ notFound (value (PublicKeyAuthentication f a)))
  /\ (forall uuid e,
      In (EvGetModel uuid) (calls (PublicKeyAuthentication f a)) ->
      GetModel (statePool f) uuid = Err e
      \/ (exists model, GetModel (statePool f) uuid = Ok model
                        /\ Config model = Err e) ->
      value (PublicKeyAuthentication f a)
      = Some (Errorf ("failed to get authorized key for model: " ++ Error e))
      /\ ~ notFound (value (PublicKeyAuthentication f a)))
  /\ (forall modelUUIDs,
      ModelUUIDsForUser (systemState f) userTag = Ok modelUUIDs ->
      (forall uuid, In uuid modelUUIDs -> unauthorizedOn f publicKey uuid) ->
      value (PublicKeyAuthentication f a)
      = Some (NotFoundf "matching public key not found")
      /\ notFound (value (PublicKeyAuthentication f a)))
  /\ (forall msg cause,
      IsNotFound cause = true -> IsNotFound (Errorf (msg ++ Error cause)) = false).
Proof.
  split; [| split; [| split; [| split]]].
  - intros e Hl. rewrite (PublicKeyAuthentication_listing_failure Hl).
    split; [reflexivity | apply Errorf_not_notFound].
  - intros before uuid after e Hl Hb Hfail. apply fetch_failure_cause in Hfail.
    rewrite (PublicKeyAuthentication_scan Hl).
    erewrite scanModels_fetch_failure by eassumption.
    cbn [calls value fst snd].
    split; [reflexivity |]. split; [| apply Errorf_not_notFound].
    right. apply in_or_app. right.
    rewrite fetchCalls_unfold.
    destruct (GetModel (statePool f) uuid); left; reflexivity.
  - intros uuid e Hin Hfail. apply fetch_failure_cause in Hfail.
    destruct (ModelUUIDsForUser (systemState f) userTag) as [ms | e'] eqn:Hl.
    + rewrite (PublicKeyAuthentication_scan Hl) in Hin |- *.
      cbn [calls value fst snd] in *.
      destruct Hin as [Hin | Hin]; [discriminate |].
      rewrite (scanModels_failed_fetch _ _ _ _ Hin Hfail).
      split; [reflexivity | apply Errorf_not_notFound].
    + rewrite (PublicKeyAuthentication_listing_failure Hl) in Hin.
      cbn in Hin. destruct Hin as [Hin | []]. discriminate.
  - intros ms Hl Hall. rewrite (PublicKeyAuthentication_scan Hl).
    rewrite (scanModels_exhausted _ Hall). cbn [value snd].
    split; [reflexivity |]. eexists. split; reflexivity.
  - intros msg cause _. reflexivity.
Qed.

(** C9.  A fetch of authorized keys that the scan makes and that fails
    ends the call with the error of that fetch.  When the scan comes to such
    a model, the log stops at the failed fetch whatever the models after it
    hold, so that a matching key of a later model grants nothing; only
    unparseable entries are passed over, failed fetches are not.  The error
    carries the message of the failure of [GetModel] or of [Config]. *)
Theorem PublicKeyAuthentication_fetch_failure :
  (forall uuid err,
      In (EvGetModel uuid) (calls (PublicKeyAuthentication f a)) ->
      fetch f uuid = Err err ->
      value (PublicKeyAuthentication f a)
      = Some (Errorf ("failed to get authorized key for model: "
                      ++ Error err)))
  /\ (forall before uuid after err,
      ModelUUIDsForUser (systemState f) userTag
      = Ok (before ++ uuid :: after) ->
      (forall u, In u before -> unauthorizedOn f publicKey u) ->
      fetch f uuid = Err err ->
      PublicKeyAuthentication f a
      = (EvModelUUIDsForUser userTag
         :: flat_map (modelCalls f) before ++ fetchCalls f uuid,
         Some (Errorf ("failed to get authorized key for model: "
                       ++ Error err)))
      /\ value (PublicKeyAuthentication f a) <> None
      /\ exists e,
           Error err = Error e
           /\ (GetModel (statePool f) uuid = Err e
               \/ (exists model, GetModel (statePool f) uuid = Ok model
                                 /\ Config model = Err e))).
Proof.
  split.
  - intros uuid err Hin Hf.
    destruct (ModelUUIDsForUser (systemState f) userTag) as [ms | e'] eqn:Hl.
    + rewrite (PublicKeyAuthentication_scan Hl) in Hin |- *.
      cbn [calls value fst snd] in *.
      destruct Hin as [Hin | Hin]; [discriminate |].
      apply scanModels_failed_fetch with (uuid := uuid); assumption.
    + rewrite (PublicKeyAuthentication_listing_failure Hl) in Hin.
      cbn in Hin. destruct Hin as [Hin | []]. discriminate.
  - intros before uuid after err Hl Hb Hf.
    rewrite (PublicKeyAuthentication_scan Hl).
    erewrite scanModels_fetch_failure by eassumption.
    cbn [calls value fst snd].
    split; [reflexivity |]. split; [discriminate |].
    apply fetch_failure_inv in Hf as (e & -> & Hc). exists e.
    split; [reflexivity | exact Hc].
Qed.

End WellFormed.

End Authentication.

(** ** [NewExternalFacade] and [Register] *)

Section RegistrationFacts.

Context {names : Names} {keys : SSHKeys} {keyfiles : KeyFiles}.

Lemma find_last (A : Type) (p : A -> bool) (l : list A) (x : A) :
  find p l = None -> find p (l ++ [x]) = if p x then Some x else None.
Proof.
  induction l as [| y l IH]; [reflexivity |].
  cbn [app find]. destruct (p y); [discriminate | exact IH].
Qed.

Lemma lookupFactory_Register (registry : FacadeRegistry) :
  lookupFactory registry "SSHServer" 1 = None ->
  lookupFactory (Register registry) "SSHServer" 1
  = Some (fun ctx => NewExternalFacade ctx).
Proof.
  unfold lookupFactory, Register, MustRegister. intros H.
  rewrite find_last; [reflexivity |].
  destruct (find _ registry); [discriminate | reflexivity].
Qed.

(** C10, as amended.  [NewExternalFacade] returns a facade exactly when the
    authorizer of the context reports a controller and the state pool of
    the context yields its system state; the facade is then the one
    [NewFacade] builds on that pool and that system state.  For a controller
    whose state pool fails to yield the system state it returns that
    failure traced by [errors.Trace], with its message and its
    classification, and no facade.  For a caller that is not a controller
    it returns [ErrPerm], [permission denied], and no facade, whatever the
    state pool holds, and every call of a method of the facade registered by
    [Register] ends with that error before a facade exists. *)
Theorem NewExternalFacade_controller_only (ctx : Context) :
  ((exists fa, NewExternalFacade ctx = Ok fa) <->
   AuthController (Auth ctx) = true
   /\ isOk (PoolSystemState (CtxStatePool ctx)) = true)
  /\ (forall e,
      AuthController (Auth ctx) = true ->
      PoolSystemState (CtxStatePool ctx) = Err e ->
      NewExternalFacade ctx = Err (Trace e)
      /\ Error (Trace e) = Error e
      /\ IsNotFound (Trace e) = IsNotFound e)
  /\ (forall st,
      AuthController (Auth ctx) = true ->
      PoolSystemState (CtxStatePool ctx) = Ok st ->
      NewExternalFacade ctx = Ok (NewFacade ctx (CtxStatePool ctx) st)
      /\ systemState (NewFacade ctx (CtxStatePool ctx) st) = st
      /\ statePool (NewFacade ctx (CtxStatePool ctx) st) = CtxStatePool ctx)
  /\ (AuthController (Auth ctx) = false ->
      NewExternalFacade ctx = Err ErrPerm
      /\ Error ErrPerm = "permission denied"
      /\ forall registry method,
           lookupFactory registry "SSHServer" 1 = None ->
           reach (Register registry) "SSHServer" 1 ctx method
           = Some (Err ErrPerm)).
Proof.
  unfold NewExternalFacade. split; [| split; [| split]].
  - destruct (AuthController (Auth ctx)); cbn [negb].
    + destruct (PoolSystemState (CtxStatePool ctx)) as [st | e]; cbn [isOk].
      * split; [auto | intros _; eexists; reflexivity].
      * split; [intros (fa & H); discriminate | intros [_ H]; discriminate].
    + split; [intros (fa & H); discriminate | intros [H _]; discriminate].
  - intros e Hc Hp. rewrite Hc, Hp. cbn [negb]. repeat split.
  - intros st Hc Hp. rewrite Hc, Hp. cbn [negb]. repeat split.
  - intros H. rewrite H. cbn [negb].
    split; [reflexivity |]. split; [reflexivity |].
    intros registry method Hr. unfold reach.
    rewrite (lookupFactory_Register _ Hr).
    unfold NewExternalFacade. rewrite H. reflexivity.
Qed.

End RegistrationFacts.

(** ** The worker *)

Module WorkerFacts.

Import Worker.

(** C6.  [Validate] fails with a not-valid error whenever the host key, the
    listener or the authorization client is unset, and returns [nil] for a
    configuration in which every field is set. *)
Theorem Validate_spec (LoggerT ListenerT : Type)
  (c : ServerWorkerConfig LoggerT ListenerT) :
  (JumpHostKey c = "" \/ Listener c = None \/ FacadeClient c = None ->
   exists err, Validate c = Some err /\ IsNotValid err = true)
  /\ (Logger c <> None -> JumpHostKey c <> "" -> Listener c <> None ->
      FacadeClient c <> None -> Validate c = None).
Proof.
  unfold Validate. split.
  - intros H. destruct (Logger c); [| eexists; split; reflexivity].
    destruct (String.eqb_spec (JumpHostKey c) "") as [E | E];
      [eexists; split; reflexivity |].
    destruct (Listener c); [| eexists; split; reflexivity].
    destruct (FacadeClient c); [| eexists; split; reflexivity].
    destruct H as [H | [H | H]]; [contradiction | discriminate | discriminate].
  - intros HL HK HN HF. destruct (Logger c); [| contradiction].
    destruct (String.eqb_spec (JumpHostKey c) ""); [contradiction |].
    destruct (Listener c); [| contradiction].
    destruct (FacadeClient c); [reflexivity | contradiction].
Qed.

Example decimal_examples :
  decimal 0 = "0" /\ decimal 1 = "1" /\ decimal 120 = "120".
Proof. repeat split. Qed.

(** The four configurations of [TestValidate]. *)
Example TestValidate (l : string) :
  let notValid (c : ServerWorkerConfig string nat) :=
    exists err, Validate c = Some err /\ IsNotValid err = true in
  notValid {| Logger := None; Listener := None; JumpHostKey := "";
              FacadeClient := None |}
  /\ notValid (newServerWorkerConfig (Some l) "jumpHostKey"
       (fun cfg => {| Logger := None; Listener := Listener cfg;
                      JumpHostKey := JumpHostKey cfg;
                      FacadeClient := FacadeClient cfg |}))
  /\ notValid (newServerWorkerConfig (Some l) "jumpHostKey"
       (fun cfg => {| Logger := Logger cfg; Listener := Listener cfg;
                      JumpHostKey := "";
                      FacadeClient := FacadeClient cfg |}))
  /\ notValid (newServerWorkerConfig (Some l) "jumpHostKey"
       (fun cfg => {| Logger := Logger cfg; Listener := Listener cfg;
                      JumpHostKey := JumpHostKey cfg;
                      FacadeClient := None |})).
Proof.
  cbv zeta. repeat split; eexists; split; reflexivity.
Qed.

Lemma append_assoc (a b c : string) :
  ((a ++ b) ++ c = a ++ (b ++ c))%string.
Proof.
  induction a as [| x a IH]; [reflexivity |].
  cbn [append]. rewrite IH. reflexivity.
Qed.

Lemma run_sessionHandler (d : Destination) (user command : string) :
  run (sessionHandler d user command)
  = {| output := acknowledgement d user; sessionClosed := true;
       channelClosed := true |}.
Proof. reflexivity. Qed.

(** C7.  After a handshake of the terminating hop that authenticated the
    user, the session delivers
    [Your final destination is: <unit>.<application>.<model>.juju.local as user: <user>]
    and one newline, nothing else, and the session and its channel are
    closed. *)
Theorem terminatingHop_acknowledgement (client : FacadeClientT)
  (d : Destination) (user : string) (offers : list AuthMethod)
  (command : string) (key : list byte) :
  authenticate client user offers = Authenticated key ->
  exists s,
    terminatingHop client d user offers command = Some s
    /\ output s
       = ("Your final destination is: "
          ++ decimal (unitNumber d) ++ "." ++ applicationName d ++ "."
          ++ modelID d ++ "." ++ "juju.local"
          ++ " as user: " ++ user ++ newline)%string
    /\ sessionClosed s = true
    /\ channelClosed s = true.
Proof.
  intros H. unfold terminatingHop. rewrite H, run_sessionHandler.
  eexists. split; [reflexivity |]. cbn [output sessionClosed channelClosed].
  repeat split. unfold acknowledgement, hostname, domainSuffix.
  rewrite !append_assoc. reflexivity.
Qed.

(** The session of [TestSSHServer]. *)
Example TestSSHServer_output :
  output (run (sessionHandler
                 {| unitNumber := 1; applicationName := "postgresql";
                    modelID := "8419cd78-4993-4c3a-928e-c646226beeee";
                    port := 20 |} "ubuntu" ""))
  = ("Your final destination is: 1.postgresql.8419cd78-4993-4c3a-928e-c646226beeee.juju.local as user: ubuntu"
     ++ newline)%string.
Proof. vm_compute. reflexivity. Qed.

Lemma authenticate_denied (client : FacadeClientT) (user : string)
  (offers : list AuthMethod) :
  (forall key, In (OfferPublicKey key) offers ->
               publicKeyHandler client user key = false) ->
  authenticate client user offers = UnableToAuthenticate.
Proof.
  induction offers as [| [key | pw] rest IH]; intros H; [reflexivity | |].
  - cbn [authenticate]. rewrite (H key (or_introl eq_refl)).
    apply IH. intros k Hk. apply H. right. exact Hk.
  - cbn [authenticate]. apply IH. intros k Hk. apply H. right. exact Hk.
Qed.

Lemma authenticate_granted (client : FacadeClientT) (user : string)
  (offers : list AuthMethod) (key : list byte) :
  authenticate client user offers = Authenticated key ->
  In (OfferPublicKey key) offers /\ publicKeyHandler client user key = true.
Proof.
  induction offers as [| [k | pw] rest IH]; [discriminate | |];
    cbn [authenticate].
  - destruct (publicKeyHandler client user k) eqn:E.
    + intros H. injection H as <-. split; [left; reflexivity | exact E].
    + intros H. destruct (IH H) as [Hin Hk]. split; [right |]; assumption.
  - intros H. destruct (IH H) as [Hin Hk]. split; [right |]; assumption.
Qed.

(** C8.  In the public-key callback a [nil] answer of the authorization
    client grants the handshake for the offered key, and any error, the
    not-found error included, denies that key only: the handshake goes on
    with the remaining offers of the client.  When the client is authorised
    for none of the keys it offers, the handshake fails with the
    authentication failure of the transport; a handshake that succeeds does
    so on an offered key the client answered [nil] for. *)
Theorem publicKeyHandler_spec (client : FacadeClientT) (user : string) :
  (forall key rest,
      client {| argUserTag := user; argPublicKey := key |} = None ->
      publicKeyHandler client user key = true
      /\ authenticate client user (OfferPublicKey key :: rest)
         = Authenticated key)
  /\ (forall key err rest,
      client {| argUserTag := user; argPublicKey := key |} = Some err ->
      publicKeyHandler client user key = false
      /\ authenticate client user (OfferPublicKey key :: rest)
         = authenticate client user rest)
  /\ (forall offers,
      (forall key, In (OfferPublicKey key) offers ->
                   client {| argUserTag := user; argPublicKey := key |}
                   <> None) ->
      authenticate client user offers = UnableToAuthenticate
      /\ handshakeError (authenticate client user offers)
         = Some "ssh: handshake failed: ssh: unable to authenticate")
  /\ (forall offers key,
      authenticate client user offers = Authenticated key ->
      In (OfferPublicKey key) offers
      /\ client {| argUserTag := user; argPublicKey := key |} = None).
Proof.
  split; [| split; [| split]].
  - intros key rest H. cbn [authenticate]. unfold publicKeyHandler.
    rewrite H. split; reflexivity.
  - intros key err rest H. cbn [authenticate]. unfold publicKeyHandler.
    rewrite H. split; reflexivity.
  - intros offers H.
    assert (E : authenticate client user offers = UnableToAuthenticate).
    { apply authenticate_denied. intros key Hk. unfold publicKeyHandler.
      specialize (H key Hk).
      destruct (client {| argUserTag := user; argPublicKey := key |});
        [reflexivity | contradiction]. }
    rewrite E. split; reflexivity.
  - intros offers key H. apply authenticate_granted in H as [Hin Hk].
    split; [exact Hin |]. unfold publicKeyHandler in Hk.
    destruct (client {| argUserTag := user; argPublicKey := key |});
      [discriminate | reflexivity].
Qed.

(** The two rows of [TestSSHPublicKeyHandler]. *)
Example TestSSHPublicKeyHandler (userKey notValidKey : list byte) :
  handshakeError
    (authenticate Fixture.aliceOnly "alice" [OfferPublicKey userKey]) = None
  /\ handshakeError
       (authenticate Fixture.aliceOnly "notfound" [OfferPublicKey notValidKey])
     = Some "ssh: handshake failed: ssh: unable to authenticate".
Proof. split; reflexivity. Qed.

End WorkerFacts.

(** * Further properties of the facade *)

Section FacadeLaws.

Context {names : Names} {keys : SSHKeys} {keyfiles : KeyFiles}.

Lemma PublicKeyAuthentication_unfold (f : Facade) (a : SSHPKIAuthArgs) :
  PublicKeyAuthentication f a
  = match ParseUserTag (argUserTag a) with
    | Err err =>
        ([], Some (Errorf ("failed to parse user tag: " ++ Error err)))
    | Ok userTag =>
        match ParsePublicKey (argPublicKey a) with
        | Err err =>
            ([], Some (Errorf ("failed to parse public key: " ++ Error err)))
        | Ok publicKey =>
            match ModelUUIDsForUser (systemState f) userTag with
            | Err err =>
                ([EvModelUUIDsForUser userTag],
                 Some (Errorf ("failed to get model uuids for user: "
                               ++ Error err)))
            | Ok modelUUIDs =>
                (EvModelUUIDsForUser userTag
                 :: calls (scanModels f publicKey modelUUIDs),
                 value (scanModels f publicKey modelUUIDs))
            end
        end
    end.
Proof.
  unfold PublicKeyAuthentication.
  destruct (ParseUserTag (argUserTag a)) as [userTag |]; [| reflexivity].
  destruct (ParsePublicKey (argPublicKey a)) as [publicKey |]; [| reflexivity].
  destruct (ModelUUIDsForUser (systemState f) userTag) as [ms |];
    [| reflexivity].
  destruct (scanModels f publicKey ms). reflexivity.
Qed.

(** *** The protocol of the calls *)

Lemma phaseAfter_app (f : Facade) (p : Phase) (l1 l2 : list Event) :
  phaseAfter f p (l1 ++ l2) = phaseAfter f (phaseAfter f p l1) l2.
Proof. apply fold_left_app. Qed.

Lemma phaseAfter_Violation (f : Facade) (log : list Event) :
  phaseAfter f Violation log = Violation.
Proof. induction log as [| e log IH]; [reflexivity |]. exact IH. Qed.

Lemma phaseAfter_parses (f : Facade) (authKeys : list string) :
  phaseAfter f Scanning (map EvParseAuthorizedKey authKeys) = Scanning.
Proof. induction authKeys as [| x l IH]; [reflexivity |]. exact IH. Qed.

Lemma phaseAfter_fetchCalls (f : Facade) (uuid : string) :
  phaseAfter f Scanning (fetchCalls f uuid)
  = if handedOut f uuid then Scanning else Refused uuid.
Proof.
  rewrite fetchCalls_unfold.
  destruct (GetModel (statePool f) uuid) as [model | e] eqn:E.
  - assert (H : handedOut f uuid = true)
      by (unfold handedOut; rewrite E; reflexivity).
    unfold phaseAfter. cbn [fold_left phaseStep]. rewrite H.
    cbn [phaseStep]. rewrite String.eqb_refl.
    cbn [phaseStep]. rewrite String.eqb_refl. reflexivity.
  - assert (H : handedOut f uuid = false)
      by (unfold handedOut; rewrite E; reflexivity).
    unfold phaseAfter. cbn [fold_left phaseStep]. rewrite H. reflexivity.
Qed.

Lemma fetch_Ok_handedOut (f : Facade) (uuid : string)
  (authKeys : list string) :
  fetch f uuid = Ok authKeys -> handedOut f uuid = true.
Proof.
  rewrite fetch_unfold. unfold handedOut.
  destruct (GetModel (statePool f) uuid); [reflexivity | discriminate].
Qed.

Lemma phaseAfter_scanModels (f : Facade) (publicKey : PublicKey)
  (modelUUIDs : list string) :
  phaseAfter f Scanning (calls (scanModels f publicKey modelUUIDs)) = Scanning
  \/ exists uuid,
       phaseAfter f Scanning (calls (scanModels f publicKey modelUUIDs))
       = Refused uuid.
Proof.
  induction modelUUIDs as [| uuid rest IH]; [left; reflexivity |].
  rewrite scanModels_cons. destruct (fetch f uuid) as [ks | e] eqn:Hf.
  - pose proof (phaseAfter_fetchCalls f uuid) as Hp.
    rewrite (fetch_Ok_handedOut _ _ Hf) in Hp.
    destruct (existsb (matchesEntry publicKey) ks); cbn [calls fst].
    + left. rewrite phaseAfter_app, Hp. apply phaseAfter_parses.
    + rewrite !phaseAfter_app, Hp, phaseAfter_parses. exact IH.
  - cbn [calls fst]. rewrite phaseAfter_fetchCalls.
    destruct (handedOut f uuid); [left | right; exists uuid]; reflexivity.
Qed.

(** What a log without a violation says about the pool. *)
Lemma phase_counts (f : Facade) (log : list Event) :
  forall p, phaseAfter f p log <> Violation ->
            count isRelease log + heldIn (phaseAfter f p log)
            = count (isHandOut f) log + heldIn p
            /\ count isModelConfig log + unreadIn (phaseAfter f p log)
               = count (isHandOut f) log + unreadIn p.
Proof.
  induction log as [| e log IH]; intros p H; [split; reflexivity |].
  change (phaseAfter f p (e :: log))
    with (phaseAfter f (phaseStep f p e) log) in *.
  assert (Hs : phaseStep f p e <> Violation).
  { intros E. rewrite E, phaseAfter_Violation in H. apply H. reflexivity. }
  destruct (IH _ H) as [IH1 IH2]. unfold count in *.
  destruct p, e; cbn in Hs |- *; try (exfalso; apply Hs; reflexivity);
    cbn in IH1, IH2;
    try (destruct (String.eqb uuid uuid0);
         [| exfalso; apply Hs; reflexivity]);
    try (destruct (handedOut f uuid));
    cbn [heldIn unreadIn length] in *; lia.
Qed.

Lemma phase_handedOut (f : Facade) (log : list Event) :
  forall p, heldHandedOut f p -> phaseAfter f p log <> Violation ->
            forall uuid,
              In (EvModelConfig uuid) log \/ In (EvRelease uuid) log ->
              handedOut f uuid = true.
Proof.
  induction log as [| e log IH]; intros p W H uuid Hin;
    [destruct Hin as [[] | []] |].
  change (phaseAfter f p (e :: log))
    with (phaseAfter f (phaseStep f p e) log) in H.
  assert (Hs : phaseStep f p e <> Violation).
  { intros E. rewrite E, phaseAfter_Violation in H. apply H. reflexivity. }
  assert (W' : heldHandedOut f (phaseStep f p e)).
  { destruct p, e; cbn in Hs |- *; try exact I;
      try (exfalso; apply Hs; reflexivity).
    - destruct (handedOut f uuid0) eqn:E; cbn; [exact E | exact I].
    - destruct (String.eqb uuid0 uuid1); [exact W | exact I].
    - destruct (String.eqb uuid0 uuid1); exact I. }
  assert (Here : e = EvModelConfig uuid \/ e = EvRelease uuid ->
                 handedOut f uuid = true).
  { intros [-> | ->]; destruct p; cbn in Hs, W;
      try (exfalso; apply Hs; reflexivity);
      destruct (String.eqb_spec uuid0 uuid) as [<- | N];
      [exact W | exfalso; apply Hs; reflexivity
      | exact W | exfalso; apply Hs; reflexivity]. }
  destruct Hin as [[E | Hin] | [E | Hin]].
  - apply Here. left. exact E.
  - apply (IH _ W' H uuid). left. exact Hin.
  - apply Here. right. exact E.
  - apply (IH _ W' H uuid). right. exact Hin.
Qed.

(** X1.  The calls of every run follow the protocol of the pool, read
    against the answers of the pool: the models are listed first, [GetModel]
    is called only while no model is held, [Config] is called only on a
    model the pool has just handed out and that model is released right
    after, whatever [Config] returns, entries are parsed only while no model
    is held, and nothing is called after the pool refused a model.  The run
    ends with no model held; [Config] and [Release] are each called as often
    as the pool hands out a model, and only for models it hands out. *)
Theorem PublicKeyAuthentication_conforms (f : Facade) (a : SSHPKIAuthArgs) :
  conforms f (calls (PublicKeyAuthentication f a)) = true
  /\ count isRelease (calls (PublicKeyAuthentication f a))
     = count (isHandOut f) (calls (PublicKeyAuthentication f a))
  /\ count isModelConfig (calls (PublicKeyAuthentication f a))
     = count (isHandOut f) (calls (PublicKeyAuthentication f a))
  /\ (forall uuid,
      In (EvModelConfig uuid) (calls (PublicKeyAuthentication f a))
      \/ In (EvRelease uuid) (calls (PublicKeyAuthentication f a)) ->
      exists model, GetModel (statePool f) uuid = Ok model).
Proof.
  assert (C : conforms f (calls (PublicKeyAuthentication f a)) = true).
  { rewrite PublicKeyAuthentication_unfold. unfold conforms.
    destruct (ParseUserTag (argUserTag a)) as [userTag |]; [| reflexivity].
    destruct (ParsePublicKey (argPublicKey a)) as [k |]; [| reflexivity].
    destruct (ModelUUIDsForUser (systemState f) userTag) as [ms |];
      [| reflexivity].
    cbn [calls fst].
    change (phaseAfter f Start (EvModelUUIDsForUser userTag
                                :: calls (scanModels f k ms)))
      with (phaseAfter f Scanning (calls (scanModels f k ms))).
    destruct (phaseAfter_scanModels f k ms) as [-> | (u & ->)]; reflexivity. }
  split; [exact C |].
  unfold conforms in C.
  assert (NV : phaseAfter f Start (calls (PublicKeyAuthentication f a))
               <> Violation)
    by (intros E; rewrite E in C; discriminate).
  destruct (phase_counts f (calls (PublicKeyAuthentication f a)) Start NV)
    as [H1 H2].
  split; [| split].
  - destruct (phaseAfter f Start (calls (PublicKeyAuthentication f a)));
      try discriminate; cbn [heldIn] in H1; lia.
  - destruct (phaseAfter f Start (calls (PublicKeyAuthentication f a)));
      try discriminate; cbn [unreadIn] in H2; lia.
  - intros uuid Hin.
    pose proof (@phase_handedOut f (calls (PublicKeyAuthentication f a))
                  Start I NV uuid Hin) as Hh.
    unfold handedOut in Hh.
    destruct (GetModel (statePool f) uuid) as [model | e];
      [| discriminate].
    exists model. reflexivity.
Qed.

(** *** What a grant and what a denial mean *)

(** X2.  A call that returns [nil] has parsed the user tag and the public
    key, has listed the models of that user, and has found, in the entries
    fetched for one of the listed models, an entry that parses to a key
    equal to the public key under [KeysEqual]; no failure of any kind leads
    to a grant. *)
Theorem PublicKeyAuthentication_sound (f : Facade) (a : SSHPKIAuthArgs) :
  value (PublicKeyAuthentication f a) = None ->
  exists userTag publicKey modelUUIDs uuid authKeys authKey
         pubKey comment options rest,
    ParseUserTag (argUserTag a) = Ok userTag
    /\ ParsePublicKey (argPublicKey a) = Ok publicKey
    /\ ModelUUIDsForUser (systemState f) userTag = Ok modelUUIDs
    /\ In uuid modelUUIDs
    /\ fetch f uuid = Ok authKeys
    /\ In authKey authKeys
    /\ ParseAuthorizedKey (list_byte_of_string authKey)
       = Ok (pubKey, comment, options, rest)
    /\ KeysEqual publicKey pubKey = true.
Proof.
  rewrite PublicKeyAuthentication_unfold.
  destruct (ParseUserTag (argUserTag a)) as [userTag |] eqn:Ht;
    [| discriminate].
  destruct (ParsePublicKey (argPublicKey a)) as [k |] eqn:Hk;
    [| discriminate].
  destruct (ModelUUIDsForUser (systemState f) userTag) as [ms |] eqn:Hl;
    [| discriminate].
  cbn [value snd]. intros Hv.
  destruct (scanModels_cases f k ms)
    as [(b & m & r & Hm & _ & (ks & x & Hf & Hx & Hx') & _)
       | [(b & m & r & e & _ & _ & _ & Hs) | (_ & Hs)]].
  - apply matchesEntry_parse in Hx' as (pk & c & o & t & Hp & He).
    exists userTag, k, ms, m, ks, x, pk, c, o, t.
    repeat (split; [reflexivity || assumption |]).
    split; [subst ms; apply in_or_app; right; left; reflexivity |].
    repeat (split; [assumption |]). exact He.
  - rewrite Hs in Hv. discriminate.
  - rewrite Hs in Hv. discriminate.
Qed.

(** X3.  Every call ends in one of six ways: [nil], one of the four
    [errors.Errorf] errors of the failed step (user tag, public key,
    listing, fetch of a listed model) with the message of that failure
    behind a fixed text, or the [errors.NotFoundf] error.  No error of a
    collaborator is handed on as it is, and the result is a not-found error
    exactly when both arguments parsed, the models were listed, every listed
    model was fetched and no entry matched. *)
Theorem PublicKeyAuthentication_outcomes (f : Facade) (a : SSHPKIAuthArgs) :
  (value (PublicKeyAuthentication f a) = None
   \/ (exists e,
        ParseUserTag (argUserTag a) = Err e
        /\ value (PublicKeyAuthentication f a)
           = Some (Errorf ("failed to parse user tag: " ++ Error e)))
   \/ (exists e,
        ParsePublicKey (argPublicKey a) = Err e
        /\ value (PublicKeyAuthentication f a)
           = Some (Errorf ("failed to parse public key: " ++ Error e)))
   \/ (exists userTag e,
        ParseUserTag (argUserTag a) = Ok userTag
        /\ ModelUUIDsForUser (systemState f) userTag = Err e
        /\ value (PublicKeyAuthentication f a)
           = Some (Errorf ("failed to get model uuids for user: "
                           ++ Error e)))
   \/ (exists userTag modelUUIDs uuid e,
        ParseUserTag (argUserTag a) = Ok userTag
        /\ ModelUUIDsForUser (systemState f) userTag = Ok modelUUIDs
        /\ In uuid modelUUIDs
        /\ fetch f uuid = Err e
        /\ value (PublicKeyAuthentication f a)
           = Some (Errorf ("failed to get authorized key for model: "
                           ++ Error e)))
   \/ value (PublicKeyAuthentication f a)
      = Some (NotFoundf "matching public key not found"))
  /\ (notFound (value (PublicKeyAuthentication f a)) <->
      exists userTag publicKey modelUUIDs,
        ParseUserTag (argUserTag a) = Ok userTag
        /\ ParsePublicKey (argPublicKey a) = Ok publicKey
        /\ ModelUUIDsForUser (systemState f) userTag = Ok modelUUIDs
        /\ forall uuid, In uuid modelUUIDs ->
                        unauthorizedOn f publicKey uuid).
Proof.
  rewrite PublicKeyAuthentication_unfold.
  assert (N : forall msg, ~ notFound (Some (Errorf msg))).
  { intros msg (e & He & Hn). injection He as <-. discriminate. }
  destruct (ParseUserTag (argUserTag a)) as [userTag | e] eqn:Ht.
  2:{ split; [right; left; exists e; auto |].
      split; [intros H; destruct (N _ H) |].
      intros (u & k & ms & H & _). discriminate. }
  destruct (ParsePublicKey (argPublicKey a)) as [k | e] eqn:Hk.
  2:{ split; [right; right; left; exists e; auto |].
      split; [intros H; destruct (N _ H) |].
      intros (u & k & ms & _ & H & _). discriminate. }
  destruct (ModelUUIDsForUser (systemState f) userTag) as [ms | e] eqn:Hl.
  2:{ split; [right; right; right; left; exists userTag, e; auto |].
      split; [intros H; destruct (N _ H) |].
      intros (u & k' & ms & Hu & _ & H & _).
      injection Hu as <-. rewrite Hl in H. discriminate. }
  cbn [value snd].
  destruct (scanModels_cases f k ms)
    as [(b & m & r & Hm & Hb & Ha & Hv)
       | [(b & m & r & e & Hm & Hb & He & Hs) | (Hall & Hs)]].
  - split; [left; exact Hv |]. rewrite Hv. split.
    + intros (e & He & _). discriminate.
    + intros (u & k' & ms' & Hu & Hk' & Hms & Hall).
      injection Hu as <-. injection Hk' as <-.
      rewrite Hl in Hms. injection Hms as <-.
      assert (Hin : In m ms) by (subst ms; apply in_or_app; right; left;
                                 reflexivity).
      apply Hall in Hin. apply unauthorizedOn_not_authorizedOn in Hin.
      destruct Hin as [_ Hn]. contradiction.
  - rewrite Hs. cbn [value snd]. split.
    + do 4 right. left. exists userTag, ms, m, e.
      repeat (split; [reflexivity || assumption |]).
      split; [subst ms; apply in_or_app; right; left; reflexivity |].
      split; [exact He | reflexivity].
    + split; [intros H; destruct (N _ H) |].
      intros (u & k' & ms' & Hu & Hk' & Hms & Hall).
      injection Hu as <-. injection Hk' as <-.
      rewrite Hl in Hms. injection Hms as <-.
      assert (Hin : In m ms) by (subst ms; apply in_or_app; right; left;
                                 reflexivity).
      apply Hall in Hin. destruct Hin as (ks & Hf & _). congruence.
  - rewrite Hs. cbn [value snd]. split; [do 5 right; reflexivity |]. split.
    + intros _. exists userTag, k, ms. auto.
    + intros _. eexists. split; reflexivity.
Qed.

(** *** What the verdict depends on *)

Lemma existsb_same_members (A : Type) (p : A -> bool) (l l' : list A) :
  (forall x, In x l <-> In x l') -> existsb p l = existsb p l'.
Proof.
  intros H. destruct (existsb p l) eqn:E, (existsb p l') eqn:E';
    try reflexivity.
  - apply existsb_exists in E as (x & Hx & Hp).
    assert (X : existsb p l' = true)
      by (apply existsb_exists; exists x; split; [apply H; exact Hx | exact Hp]).
    congruence.
  - apply existsb_exists in E' as (x & Hx & Hp).
    assert (X : existsb p l = true)
      by (apply existsb_exists; exists x; split; [apply H; exact Hx | exact Hp]).
    congruence.
Qed.

Lemma existsb_ext_in (A : Type) (p q : A -> bool) (l : list A) :
  (forall x, In x l -> p x = q x) -> existsb p l = existsb q l.
Proof.
  induction l as [| x l IH]; intros H; [reflexivity |].
  cbn [existsb]. rewrite (H x (or_introl eq_refl)), IH; [reflexivity |].
  intros y Hy. apply H. right. exact Hy.
Qed.

Lemma scanModels_all_fetched (f : Facade) (publicKey : PublicKey)
  (modelUUIDs : list string) :
  (forall u, In u modelUUIDs -> isOk (fetch f u) = true) ->
  value (scanModels f publicKey modelUUIDs)
  = if existsb (modelMatches f publicKey) modelUUIDs then None
    else Some (NotFoundf "matching public key not found").
Proof.
  induction modelUUIDs as [| u rest IH]; intros H; [reflexivity |].
  rewrite scanModels_cons. cbn [existsb]. unfold modelMatches at 1, keysOf.
  assert (Hu : isOk (fetch f u) = true) by (apply H; left; reflexivity).
  destruct (fetch f u) as [ks | e]; [| discriminate].
  destruct (existsb (matchesEntry publicKey) ks); [reflexivity |].
  cbn [value snd orb]. apply IH. intros x Hx. apply H. right. exact Hx.
Qed.

(** X4.  When every listed model can be fetched, the verdict depends only on
    which models are listed and on which entries each of them stores: two
    facades that list the same models for the user, in any order and with
    any repetition, and store the same entries for each, in any order and
    with any repetition, return the same result. *)
Theorem PublicKeyAuthentication_same_members (f1 f2 : Facade)
  (a : SSHPKIAuthArgs) (userTag : UserTag) (publicKey : PublicKey)
  (ms1 ms2 : list string) :
  ParseUserTag (argUserTag a) = Ok userTag ->
  ParsePublicKey (argPublicKey a) = Ok publicKey ->
  ModelUUIDsForUser (systemState f1) userTag = Ok ms1 ->
  ModelUUIDsForUser (systemState f2) userTag = Ok ms2 ->
  (forall u, In u ms1 <-> In u ms2) ->
  (forall u, In u ms1 ->
             exists ks1 ks2,
               fetch f1 u = Ok ks1 /\ fetch f2 u = Ok ks2
               /\ forall e, In e ks1 <-> In e ks2) ->
  value (PublicKeyAuthentication f1 a) = value (PublicKeyAuthentication f2 a).
Proof.
  intros Ht Hk H1 H2 Hm Hf.
  rewrite !PublicKeyAuthentication_unfold, Ht, Hk, H1, H2. cbn [value snd].
  rewrite !scanModels_all_fetched.
  - assert (E : existsb (modelMatches f1 publicKey) ms1
                = existsb (modelMatches f2 publicKey) ms2).
    { transitivity (existsb (modelMatches f2 publicKey) ms1);
        [apply existsb_ext_in | apply existsb_same_members; exact Hm].
      intros u Hu. destruct (Hf u Hu) as (ks1 & ks2 & E1 & E2 & Hks).
      unfold modelMatches, keysOf. rewrite E1, E2.
      apply existsb_same_members. exact Hks. }
    rewrite E. reflexivity.
  - intros u Hu. apply Hm in Hu.
    destruct (Hf u Hu) as (ks1 & ks2 & _ & E2 & _). rewrite E2. reflexivity.
  - intros u Hu. destruct (Hf u Hu) as (ks1 & ks2 & E1 & _). rewrite E1.
    reflexivity.
Qed.

(** *** Longer listings *)

Lemma scanModels_pool (f1 f2 : Facade) (publicKey : PublicKey)
  (modelUUIDs : list string) :
  statePool f1 = statePool f2 ->
  scanModels f1 publicKey modelUUIDs = scanModels f2 publicKey modelUUIDs.
Proof.
  intros H. induction modelUUIDs as [| u rest IH]; [reflexivity |].
  cbn [scanModels]. unfold authorizedKeysPerModel. rewrite H, IH.
  reflexivity.
Qed.

Lemma scanModels_app (f : Facade) (publicKey : PublicKey)
  (modelUUIDs more : list string) :
  scanModels f publicKey (modelUUIDs ++ more)
  = match value (scanModels f publicKey modelUUIDs) with
    | Some (NotFoundf _) =>
        (calls (scanModels f publicKey modelUUIDs)
         ++ calls (scanModels f publicKey more),
         value (scanModels f publicKey more))
    | _ => scanModels f publicKey modelUUIDs
    end.
Proof.
  induction modelUUIDs as [| u rest IH].
  - cbn [app scanModels ret value calls fst snd]. apply call_eta.
  - cbn [app]. rewrite !scanModels_cons.
    destruct (fetch f u) as [ks | e]; [| reflexivity].
    destruct (existsb (matchesEntry publicKey) ks); [reflexivity |].
    cbn [value calls fst snd]. rewrite IH.
    destruct (value (scanModels f publicKey rest)) as [[] |] eqn:E;
      cbn [value calls fst snd]; rewrite ?E; try reflexivity.
    rewrite <- !app_assoc. reflexivity.
Qed.

(** X5.  Models listed behind the ones a call has scanned change its
    outcome only when the scan found nothing.  For two facades over the same
    pool, the second listing the models of the first followed by more: when
    the first returns [nil] or an error other than not-found, the second
    makes the same calls and returns the same result; when the first
    returns not-found, the second makes the calls of the first, goes on with
    the added models and returns what their scan returns. *)
Theorem PublicKeyAuthentication_more_models (f1 f2 : Facade)
  (a : SSHPKIAuthArgs) (userTag : UserTag) (publicKey : PublicKey)
  (modelUUIDs more : list string) :
  ParseUserTag (argUserTag a) = Ok userTag ->
  ParsePublicKey (argPublicKey a) = Ok publicKey ->
  statePool f1 = statePool f2 ->
  ModelUUIDsForUser (systemState f1) userTag = Ok modelUUIDs ->
  ModelUUIDsForUser (systemState f2) userTag = Ok (modelUUIDs ++ more) ->
  (~ notFound (value (PublicKeyAuthentication f1 a)) ->
   PublicKeyAuthentication f2 a = PublicKeyAuthentication f1 a)
  /\ (notFound (value (PublicKeyAuthentication f1 a)) ->
      PublicKeyAuthentication f2 a
      = (calls (PublicKeyAuthentication f1 a)
         ++ calls (scanModels f2 publicKey more),
         value (scanModels f2 publicKey more))).
Proof.
  intros Ht Hk Hp H1 H2.
  rewrite !PublicKeyAuthentication_unfold, Ht, Hk, H1, H2.
  cbn [value calls fst snd].
  assert (P : forall ms, scanModels f2 publicKey ms = scanModels f1 publicKey ms)
    by (intros ms; symmetry; apply scanModels_pool; exact Hp).
  rewrite !P, scanModels_app.
  destruct (scanModels_cases f1 publicKey modelUUIDs)
    as [(b & m & r & _ & _ & _ & Hv)
       | [(b & m & r & e & _ & _ & _ & Hs) | (_ & Hs)]].
  - rewrite Hv. cbv iota. rewrite Hv. split; [reflexivity |].
    intros (e & He & _). discriminate.
  - rewrite Hs. cbn [value calls fst snd].
    split; [reflexivity |]. intros (e' & He & Hn).
    injection He as <-. discriminate.
  - rewrite Hs. cbn [value calls fst snd]. split; [| reflexivity].
    intros Hn. exfalso. apply Hn. eexists. split; reflexivity.
Qed.

(** *** How many calls a run makes *)

Lemma count_app (p : Event -> bool) (l1 l2 : list Event) :
  count p (l1 ++ l2) = count p l1 + count p l2.
Proof. unfold count. rewrite filter_app, length_app. reflexivity. Qed.

Lemma count_fetchCalls (f : Facade) (uuid : string) :
  count isGetModel (fetchCalls f uuid) = 1
  /\ count isParse (fetchCalls f uuid) = 0
  /\ count isListing (fetchCalls f uuid) = 0.
Proof.
  rewrite fetchCalls_unfold.
  destruct (GetModel (statePool f) uuid); repeat split; reflexivity.
Qed.

Lemma count_parses (authKeys : list string) :
  count isGetModel (map EvParseAuthorizedKey authKeys) = 0
  /\ count isParse (map EvParseAuthorizedKey authKeys) = length authKeys
  /\ count isListing (map EvParseAuthorizedKey authKeys) = 0.
Proof.
  induction authKeys as [| x l (IH1 & IH2 & IH3)]; [repeat split |].
  unfold count in *. cbn.
  split; [exact IH1 | split; [rewrite IH2; reflexivity | exact IH3]].
Qed.

Lemma examined_length (publicKey : PublicKey) (authKeys : list string) :
  length (examined publicKey authKeys) <= length authKeys.
Proof.
  induction authKeys as [| x l IH]; [apply le_n |].
  cbn [examined length]. destruct (matchesEntry publicKey x); cbn [length]; lia.
Qed.

Lemma scanModels_counts (f : Facade) (publicKey : PublicKey)
  (modelUUIDs : list string) :
  count isGetModel (calls (scanModels f publicKey modelUUIDs))
  <= length modelUUIDs
  /\ count isParse (calls (scanModels f publicKey modelUUIDs))
     <= length (flat_map (keysOf f) modelUUIDs)
  /\ count isListing (calls (scanModels f publicKey modelUUIDs)) = 0.
Proof.
  induction modelUUIDs as [| u rest (IH1 & IH2 & IH3)];
    [split; [apply le_n | split; [apply le_n | reflexivity]] |].
  rewrite scanModels_cons. cbn [flat_map length]. rewrite length_app.
  unfold keysOf at 1.
  destruct (count_fetchCalls f u) as (G & P & L).
  destruct (fetch f u) as [ks | e].
  - destruct (existsb (matchesEntry publicKey) ks); cbn [calls fst];
      rewrite !count_app, G, P, L.
    + destruct (count_parses (examined publicKey ks)) as (-> & -> & ->).
      pose proof (examined_length publicKey ks). lia.
    + destruct (count_parses ks) as (-> & -> & ->). lia.
  - cbn [calls fst]. rewrite G, P, L. cbn [length]. lia.
Qed.

Lemma count_occ_cons_eqb (l : list string) (x y : string) :
  count_occ string_dec (x :: l) y
  = (if String.eqb x y then 1 else 0) + count_occ string_dec l y.
Proof.
  cbn [count_occ].
  destruct (string_dec x y) as [E | N], (String.eqb_spec x y) as [E' | N'];
    try contradiction; reflexivity.
Qed.

Lemma count_of_fetchCalls (f : Facade) (u uuid authKey : string) :
  count (isGetModelOf uuid) (fetchCalls f u)
  = (if String.eqb u uuid then 1 else 0)
  /\ count (isParseOf authKey) (fetchCalls f u) = 0.
Proof.
  rewrite fetchCalls_unfold. unfold count.
  destruct (GetModel (statePool f) u); cbn;
    destruct (String.eqb u uuid); split; reflexivity.
Qed.

Lemma count_of_parses (uuid authKey : string) (authKeys : list string) :
  count (isGetModelOf uuid) (map EvParseAuthorizedKey authKeys) = 0
  /\ count (isParseOf authKey) (map EvParseAuthorizedKey authKeys)
     = count_occ string_dec authKeys authKey.
Proof.
  induction authKeys as [| x l [IH1 IH2]]; [split; reflexivity |].
  rewrite count_occ_cons_eqb. unfold count in *. cbn [map filter isGetModelOf].
  split; [exact IH1 |]. cbn [isParseOf].
  destruct (String.eqb x authKey); cbn [length]; rewrite IH2; reflexivity.
Qed.

Lemma examined_count_occ (publicKey : PublicKey) (authKeys : list string)
  (authKey : string) :
  count_occ string_dec (examined publicKey authKeys) authKey
  <= count_occ string_dec authKeys authKey.
Proof.
  induction authKeys as [| x l IH]; [apply le_n |].
  cbn [examined]. rewrite !count_occ_cons_eqb.
  destruct (matchesEntry publicKey x); cbn [count_occ]; lia.
Qed.

Lemma scanModels_counts_of (f : Facade) (publicKey : PublicKey)
  (uuid authKey : string) (modelUUIDs : list string) :
  count (isGetModelOf uuid) (calls (scanModels f publicKey modelUUIDs))
  <= count_occ string_dec modelUUIDs uuid
  /\ count (isParseOf authKey) (calls (scanModels f publicKey modelUUIDs))
     <= count_occ string_dec (flat_map (keysOf f) modelUUIDs) authKey.
Proof.
  induction modelUUIDs as [| u rest [IH1 IH2]]; [split; apply le_n |].
  rewrite scanModels_cons. cbn [flat_map]. rewrite count_occ_app.
  rewrite count_occ_cons_eqb. unfold keysOf at 1.
  destruct (count_of_fetchCalls f u uuid authKey) as [G P].
  destruct (fetch f u) as [ks | e].
  - destruct (existsb (matchesEntry publicKey) ks); cbn [calls fst];
      rewrite !count_app, G, P.
    + destruct (count_of_parses uuid authKey (examined publicKey ks))
        as [-> ->].
      pose proof (examined_count_occ publicKey ks authKey). lia.
    + destruct (count_of_parses uuid authKey ks) as [-> ->]. lia.
  - cbn [calls fst]. rewrite G, P. cbn [count_occ]. lia.
Qed.

(** X6.  A call with arguments that parse lists the models exactly once,
    whether the listing succeeds or not.  When it fails, the pool is not
    asked and nothing is parsed.  When it succeeds, the pool is asked for a
    model at most as often as the listing names that model, and an entry is
    parsed at most as often as it is stored among the listed models; in
    total there are at most as many calls of [GetModel] as listed models and
    as many parses as stored entries. *)
Theorem PublicKeyAuthentication_call_bounds (f : Facade) (a : SSHPKIAuthArgs)
  (userTag : UserTag) (publicKey : PublicKey) :
  ParseUserTag (argUserTag a) = Ok userTag ->
  ParsePublicKey (argPublicKey a) = Ok publicKey ->
  count isListing (calls (PublicKeyAuthentication f a)) = 1
  /\ (forall e,
      ModelUUIDsForUser (systemState f) userTag = Err e ->
      count isGetModel (calls (PublicKeyAuthentication f a)) = 0
      /\ count isParse (calls (PublicKeyAuthentication f a)) = 0)
  /\ (forall modelUUIDs,
      ModelUUIDsForUser (systemState f) userTag = Ok modelUUIDs ->
      (forall uuid,
          count (isGetModelOf uuid) (calls (PublicKeyAuthentication f a))
          <= count_occ string_dec modelUUIDs uuid)
      /\ (forall authKey,
          count (isParseOf authKey) (calls (PublicKeyAuthentication f a))
          <= count_occ string_dec (flat_map (keysOf f) modelUUIDs) authKey)
      /\ count isGetModel (calls (PublicKeyAuthentication f a))
         <= length modelUUIDs
      /\ count isParse (calls (PublicKeyAuthentication f a))
         <= length (flat_map (keysOf f) modelUUIDs)).
Proof.
  intros Ht Hk. rewrite PublicKeyAuthentication_unfold, Ht, Hk.
  destruct (ModelUUIDsForUser (systemState f) userTag) as [ms | e'].
  - cbn [calls fst].
    destruct (scanModels_counts f publicKey ms) as (G & P & L).
    change (EvModelUUIDsForUser userTag :: calls (scanModels f publicKey ms))
      with ([EvModelUUIDsForUser userTag]
            ++ calls (scanModels f publicKey ms)).
    rewrite !count_app, L.
    split; [reflexivity |]. split; [intros e He; discriminate |].
    intros ms' Hms. injection Hms as <-.
    split; [| split; [| split; [exact G | exact P]]].
    + intros uuid. rewrite count_app.
      exact (proj1 (scanModels_counts_of f publicKey uuid "" ms)).
    + intros authKey. rewrite count_app.
      exact (proj2 (scanModels_counts_of f publicKey "" authKey ms)).
  - cbn [calls fst]. split; [reflexivity |].
    split; [intros e _; split; reflexivity | intros ms Hms; discriminate].
Qed.

End FacadeLaws.

(** * The client of the facade *)

Module ClientFacts.

Import Params.

(** The facade of [TestSSHServerHostKey]. *)
Example TestSSHServerHostKey (ServerError : error -> error) :
  HostKey.FacadeSSHServerHostKey ServerError
    {| HostKey.SSHServerHostKey := ("hostkey", None) |}
  = ({| StringError := None; Result := "hostkey" |}, None).
Proof. reflexivity. Qed.

Section Delivery.

Context {names : Names} {keys : SSHKeys} {keyfiles : KeyFiles}.

(** X7.  However the call delivers the verdict of the facade, as the error
    of the call or in the error of the result, [PublicKeyAuthentication] of
    the client returns that verdict.  Whatever the caller does, the client
    returns [nil] only for a call that returned no error with a result that
    holds none, and an error of the call comes before the result. *)
Theorem Client_PublicKeyAuthentication_verdict (c : Client.Client)
  (f : Facade) (a : SSHPKIAuthArgs) :
  Client.FacadeCallError (Client.facade c) "PublicKeyAuthentication" a
  = (value (PublicKeyAuthentication f a), {| ResultError := None |})
  \/ Client.FacadeCallError (Client.facade c) "PublicKeyAuthentication" a
     = (None, {| ResultError := value (PublicKeyAuthentication f a) |}) ->
  Client.PublicKeyAuthentication c a = value (PublicKeyAuthentication f a)
  /\ (forall c' a',
      Client.PublicKeyAuthentication c' a' = None <->
      Client.FacadeCallError (Client.facade c') "PublicKeyAuthentication" a'
      = (None, {| ResultError := None |}))
  /\ (forall c' a' e r,
      Client.FacadeCallError (Client.facade c') "PublicKeyAuthentication" a'
      = (Some e, r) ->
      Client.PublicKeyAuthentication c' a' = Some e).
Proof.
  intros H. split; [| split].
  - unfold Client.PublicKeyAuthentication.
    destruct H as [-> | ->]; cbn [ResultError];
      destruct (value (PublicKeyAuthentication f a)); reflexivity.
  - intros c' a'. unfold Client.PublicKeyAuthentication.
    destruct (Client.FacadeCallError (Client.facade c')
                "PublicKeyAuthentication" a') as [[e |] [[e' |]]];
      cbn [ResultError]; split; intros H'; try discriminate; reflexivity.
  - intros c' a' e r H'. unfold Client.PublicKeyAuthentication.
    rewrite H'. reflexivity.
Qed.

End Delivery.

(** X8.  [SSHServerHostKey] of the facade never returns an error of its
    own: a failure of the system state travels in the result, converted,
    beside whatever key the system state returned.  The client that receives
    this result returns the key when there was no failure, and the converted
    error with an empty key otherwise; no client call returns a key together
    with an error. *)
Theorem Client_SSHServerHostKey_delivers (ServerError : error -> error)
  (systemState : HostKey.HostKeyState) (c : Client.Client) :
  Client.FacadeCallString (Client.facade c) "SSHServerHostKey"
  = (snd (HostKey.FacadeSSHServerHostKey ServerError systemState),
     fst (HostKey.FacadeSSHServerHostKey ServerError systemState)) ->
  Client.SSHServerHostKey c
  = match snd (HostKey.SSHServerHostKey systemState) with
    | None => (fst (HostKey.SSHServerHostKey systemState), None)
    | Some err => ("", Some (ServerError err))
    end
  /\ snd (HostKey.FacadeSSHServerHostKey ServerError systemState) = None
  /\ Result (fst (HostKey.FacadeSSHServerHostKey ServerError systemState))
     = fst (HostKey.SSHServerHostKey systemState)
  /\ StringError (fst (HostKey.FacadeSSHServerHostKey ServerError systemState))
     = option_map ServerError (snd (HostKey.SSHServerHostKey systemState))
  /\ (forall c',
      snd (Client.SSHServerHostKey c') <> None ->
      fst (Client.SSHServerHostKey c') = "").
Proof.
  unfold Client.SSHServerHostKey, HostKey.FacadeSSHServerHostKey.
  destruct (HostKey.SSHServerHostKey systemState) as [key [err |]];
    cbn [fst snd StringError Result option_map]; intros ->;
    cbn [StringError Result];
    (split; [reflexivity |]); (split; [reflexivity |]);
    (split; [reflexivity |]); (split; [reflexivity |]);
    intros c';
    destruct (Client.FacadeCallString (Client.facade c') "SSHServerHostKey")
      as [[e |] [[e' |] k]]; cbn [fst snd StringError Result];
    intros H; try reflexivity; exfalso; apply H; reflexivity.
Qed.

End ClientFacts.

(** * The properties on the small controller *)

Import Fixture.

Lemma fetch_m1 :
  fetch facade "m1"
  = Ok (["not-a-key"] ++ "ssh-rsa KEY1 alice@laptop" :: ["ssh-rsa KEY3 spare"]).
Proof. vm_compute. reflexivity. Defined.

Lemma authorizedOn_m1_KEY1 : authorizedOn facade KEY1 "m1".
Proof.
  exists ["not-a-key"; "ssh-rsa KEY1 alice@laptop"; "ssh-rsa KEY3 spare"],
         "ssh-rsa KEY1 alice@laptop".
  split; [vm_compute; reflexivity |].
  split; [right; left; reflexivity | vm_compute; reflexivity].
Defined.

Lemma authorizedOn_m2_KEY2 : authorizedOn facade KEY2 "m2".
Proof.
  exists ["ssh-rsa KEY2 bob@desk"], "ssh-rsa KEY2 bob@desk".
  split; [vm_compute; reflexivity |].
  split; [left; reflexivity | vm_compute; reflexivity].
Defined.

Lemma unauthorizedOn_m1_KEY2 : unauthorizedOn facade KEY2 "m1".
Proof.
  exists ["not-a-key"; "ssh-rsa KEY1 alice@laptop"; "ssh-rsa KEY3 spare"].
  split; [vm_compute; reflexivity |].
  intros k [<- | [<- | [<- | []]]]; vm_compute; reflexivity.
Defined.

(** The claim C1 as it is written fails for [carol], who reaches [gone]
    and [m1]: her key is an entry of [m1], yet the call returns the error
    of the fetch of [gone], which comes first in her listing. *)
Lemma PublicKeyAuthentication_decision_counterexample :
  ParseUserTag "user-carol" = Ok "carol"
  /\ ParsePublicKey KEY1 = Ok KEY1
  /\ ModelUUIDsForUser state "carol" = Ok ["gone"; "m1"]
  /\ value (PublicKeyAuthentication facade (args "user-carol" KEY1))
     = Some (Errorf "failed to get authorized key for model: model not found")
  /\ ~ (value (PublicKeyAuthentication facade (args "user-carol" KEY1)) = None
        <-> exists uuid, In uuid ["gone"; "m1"] /\ authorizedOn facade KEY1 uuid).
Proof.
  split; [reflexivity |]. split; [reflexivity |]. split; [reflexivity |].
  split; [vm_compute; reflexivity |].
  intros [_ H].
  assert (E : value (PublicKeyAuthentication facade (args "user-carol" KEY1))
              = None).
  { apply H. exists "m1". split; [right; left; reflexivity |].
    exact authorizedOn_m1_KEY1. }
  vm_compute in E. discriminate E.
Qed.

Lemma PublicKeyAuthentication_decision_witness :
  ParseUserTag "user-alice" = Ok "alice"
  /\ ParsePublicKey KEY2 = Ok KEY2
  /\ ModelUUIDsForUser state "alice" = Ok ["m1"; "m2"]
  /\ value (PublicKeyAuthentication facade (args "user-alice" KEY2)) = None.
Proof.
  split; [reflexivity |]. split; [reflexivity |]. split; [reflexivity |].
  apply (proj1 (@PublicKeyAuthentication_decision names keys keyfiles facade
                  (args "user-alice" KEY2) "alice" KEY2
                  eq_refl eq_refl ["m1"; "m2"] eq_refl)).
  exists ["m1"], "m2", []. split; [reflexivity |].
  split; [| exact authorizedOn_m2_KEY2].
  intros u [<- | []]. vm_compute. reflexivity.
Defined.

Lemma PublicKeyAuthentication_first_match_witness :
  ParseUserTag "user-alice" = Ok "alice"
  /\ ParsePublicKey KEY1 = Ok KEY1
  /\ ModelUUIDsForUser state "alice" = Ok ([] ++ "m1" :: ["m2"])
  /\ fetch facade "m1"
     = Ok (["not-a-key"] ++ "ssh-rsa KEY1 alice@laptop" :: ["ssh-rsa KEY3 spare"])
  /\ matchesEntry KEY1 "not-a-key" = false
  /\ matchesEntry KEY1 "ssh-rsa KEY1 alice@laptop" = true
  /\ PublicKeyAuthentication facade (args "user-alice" KEY1)
     = ([@EvModelUUIDsForUser names "alice"; EvGetModel "m1";
         EvModelConfig "m1"; EvRelease "m1";
         EvParseAuthorizedKey "not-a-key";
         EvParseAuthorizedKey "ssh-rsa KEY1 alice@laptop"], None).
Proof.
  split; [reflexivity |]. split; [reflexivity |]. split; [reflexivity |].
  split; [exact fetch_m1 |]. split; [vm_compute; reflexivity |].
  split; [vm_compute; reflexivity |].
  refine (eq_trans
            (proj1 (@PublicKeyAuthentication_first_match names keys keyfiles facade
                      (args "user-alice" KEY1) "alice" KEY1 eq_refl eq_refl
                      [] "m1" ["m2"] ["not-a-key"]
                      "ssh-rsa KEY1 alice@laptop" ["ssh-rsa KEY3 spare"]
                      eq_refl _ fetch_m1 _ _)) _).
  - intros u [].
  - intros e [<- | []]. vm_compute. reflexivity.
  - vm_compute. reflexivity.
  - vm_compute. reflexivity.
Defined.

Lemma PublicKeyAuthentication_parse_error_witness :
  isOk (ParseUserTag (argUserTag (args "alice" KEY1))) = false
  /\ PublicKeyAuthentication facade (args "alice" KEY1)
     = ([], Some (Errorf "failed to parse user tag: not a valid user tag"))
  /\ exists what err,
       PublicKeyAuthentication facade (args "alice" KEY1)
       = ([], Some (Errorf ("failed to parse " ++ what ++ ": " ++ Error err)))
       /\ (what = "user tag"
           /\ ParseUserTag (argUserTag (args "alice" KEY1)) = Err err
           \/ what = "public key"
              /\ ParsePublicKey (argPublicKey (args "alice" KEY1)) = Err err)
       /\ IsNotFound (Errorf ("failed to parse " ++ what ++ ": " ++ Error err))
          = false
       /\ ~ notFound (value (PublicKeyAuthentication facade (args "alice" KEY1))).
Proof.
  split; [reflexivity |]. split; [reflexivity |].
  apply (@PublicKeyAuthentication_parse_error names keys keyfiles facade
           (args "alice" KEY1)).
  left. reflexivity.
Defined.

Lemma PublicKeyAuthentication_skips_malformed_witness :
  ParseUserTag "user-alice" = Ok "alice"
  /\ ParsePublicKey KEY1 = Ok KEY1
  /\ ModelUUIDsForUser state "alice" = Ok ([] ++ "m1" :: ["m2"])
  /\ parseable "not-a-key" = false
  /\ matchesEntry KEY1 "ssh-rsa KEY1 alice@laptop" = true
  /\ value (PublicKeyAuthentication facade (args "user-alice" KEY1)) = None.
Proof.
  split; [reflexivity |]. split; [reflexivity |]. split; [reflexivity |].
  split; [vm_compute; reflexivity |]. split; [vm_compute; reflexivity |].
  refine (proj1 (@PublicKeyAuthentication_skips_malformed names keys keyfiles facade
                   (args "user-alice" KEY1) "alice" KEY1 eq_refl eq_refl
                   [] "m1" ["m2"] ["not-a-key"]
                   "ssh-rsa KEY1 alice@laptop" ["ssh-rsa KEY3 spare"]
                   eq_refl _ fetch_m1 _ _)).
  - intros u [].
  - intros e [<- | []]. vm_compute. reflexivity.
  - vm_compute. reflexivity.
Defined.

Lemma PublicKeyAuthentication_remote_failure_witness :
  (ModelUUIDsForUser state "dave" = Err (Raw "user not found" true)
   /\ PublicKeyAuthentication facade (args "user-dave" KEY1)
      = ([@EvModelUUIDsForUser names "dave"],
         Some (Errorf "failed to get model uuids for user: user not found"))
   /\ ~ notFound (value (PublicKeyAuthentication facade (args "user-dave" KEY1))))
  /\ (ModelUUIDsForUser state "carol" = Ok ([] ++ "gone" :: ["m1"])
      /\ GetModel pool "gone" = Err (Raw "model not found" true)
      /\ IsNotFound (Raw "model not found" true) = true
      /\ value (PublicKeyAuthentication facade (args "user-carol" KEY1))
         = Some (Errorf
                   "failed to get authorized key for model: model not found")
      /\ ~ notFound
           (value (PublicKeyAuthentication facade (args "user-carol" KEY1))))
  /\ (ModelUUIDsForUser state "frank" = Ok (["m1"] ++ "broken" :: ["m2"])
      /\ (exists model,
             GetModel pool "broken" = Ok model
             /\ Config model = Err (Raw "cannot read model config" false))
      /\ value (PublicKeyAuthentication facade (args "user-frank" KEY2))
         = Some (Errorf
                   "failed to get authorized key for model: cannot read model config")
      /\ ~ notFound
           (value (PublicKeyAuthentication facade (args "user-frank" KEY2))))
  /\ (ModelUUIDsForUser state "alice" = Ok ["m1"; "m2"]
      /\ value (PublicKeyAuthentication facade
                  (args "user-alice" (list_byte_of_string "KEY9")))
         = Some (NotFoundf "matching public key not found")
      /\ notFound
           (value (PublicKeyAuthentication facade
                     (args "user-alice" (list_byte_of_string "KEY9"))))).
Proof.
  split; [| split; [| split]].
  - split; [reflexivity |].
    exact (proj1 (@PublicKeyAuthentication_remote_failure names keys keyfiles
                    facade (args "user-dave" KEY1) "dave" KEY1
                    eq_refl eq_refl)
                 (Raw "user not found" true) eq_refl).
  - split; [reflexivity |]. split; [reflexivity |]. split; [reflexivity |].
    pose proof (proj1 (proj2 (@PublicKeyAuthentication_remote_failure
                                names keys keyfiles
                                facade (args "user-carol" KEY1) "carol" KEY1
                                eq_refl eq_refl))
                  [] "gone" ["m1"] (Raw "model not found" true) eq_refl) as T.
    assert (Hb : forall u, In u [] -> unauthorizedOn facade KEY1 u)
      by (intros u []).
    destruct (T Hb (or_introl eq_refl)) as (V & _ & N).
    split; [exact V | exact N].
  - split; [reflexivity |].
    assert (B : exists model,
               GetModel pool "broken" = Ok model
               /\ Config model = Err (Raw "cannot read model config" false))
      by (eexists; split; reflexivity).
    split; [exact B |].
    pose proof (proj1 (proj2 (@PublicKeyAuthentication_remote_failure
                                names keys keyfiles
                                facade (args "user-frank" KEY2) "frank" KEY2
                                eq_refl eq_refl))
                  ["m1"] "broken" ["m2"]
                  (Raw "cannot read model config" false) eq_refl) as T.
    assert (Hb : forall u, In u ["m1"] -> unauthorizedOn facade KEY2 u)
      by (intros u [<- | []]; exact unauthorizedOn_m1_KEY2).
    destruct (T Hb (or_intror B)) as (V & _ & N).
    split; [exact V | exact N].
  - split; [reflexivity |].
    apply (proj1 (proj2 (proj2 (proj2
             (@PublicKeyAuthentication_remote_failure names keys keyfiles
                facade (args "user-alice" (list_byte_of_string "KEY9"))
                "alice" (list_byte_of_string "KEY9") eq_refl eq_refl))))
             ["m1"; "m2"] eq_refl).
    intros u [<- | [<- | []]].
    + exists ["not-a-key"; "ssh-rsa KEY1 alice@laptop"; "ssh-rsa KEY3 spare"].
      split; [vm_compute; reflexivity |].
      intros k [<- | [<- | [<- | []]]]; vm_compute; reflexivity.
    + exists ["ssh-rsa KEY2 bob@desk"].
      split; [vm_compute; reflexivity |].
      intros k [<- | []]; vm_compute; reflexivity.
Defined.

Lemma PublicKeyAuthentication_fetch_failure_witness :
  ParseUserTag "user-frank" = Ok "frank"
  /\ ParsePublicKey KEY2 = Ok KEY2
  /\ ModelUUIDsForUser state "frank" = Ok (["m1"] ++ "broken" :: ["m2"])
  /\ unauthorizedOn facade KEY2 "m1"
  /\ fetch facade "broken" = Err (Trace (Raw "cannot read model config" false))
  /\ authorizedOn facade KEY2 "m2"
  /\ PublicKeyAuthentication facade (args "user-frank" KEY2)
     = ([@EvModelUUIDsForUser names "frank"; EvGetModel "m1";
         EvModelConfig "m1"; EvRelease "m1";
         EvParseAuthorizedKey "not-a-key";
         EvParseAuthorizedKey "ssh-rsa KEY1 alice@laptop";
         EvParseAuthorizedKey "ssh-rsa KEY3 spare";
         EvGetModel "broken"; EvModelConfig "broken"; EvRelease "broken"],
        Some (Errorf
                "failed to get authorized key for model: cannot read model config")).
Proof.
  split; [reflexivity |]. split; [reflexivity |]. split; [reflexivity |].
  split; [exact unauthorizedOn_m1_KEY2 |]. split; [reflexivity |].
  split; [exact authorizedOn_m2_KEY2 |].
  refine (eq_trans
            (proj1 (proj2 (@PublicKeyAuthentication_fetch_failure
                             names keys keyfiles facade
                             (args "user-frank" KEY2) "frank" KEY2
                             eq_refl eq_refl)
                      ["m1"] "broken" ["m2"]
                      (Trace (Raw "cannot read model config" false))
                      eq_refl _ eq_refl)) _).
  - intros u [<- | []]. exact unauthorizedOn_m1_KEY2.
  - vm_compute. reflexivity.
Defined.

(** The claim C10 as it is written fails for a controller whose state pool
    does not yield the system state: the caller is a controller and no
    facade is built. *)
Lemma NewExternalFacade_counterexample :
  AuthController (Auth closedPool) = true
  /\ NewExternalFacade closedPool = Err (Trace (Raw "state pool closed" false))
  /\ ~ ((exists fa, NewExternalFacade closedPool = Ok fa)
        <-> AuthController (Auth closedPool) = true).
Proof.
  split; [reflexivity |]. split; [reflexivity |].
  intros [_ H]. destruct (H eq_refl) as (fa & Hfa). discriminate Hfa.
Qed.

Lemma NewExternalFacade_controller_only_witness :
  (AuthController (Auth userCaller) = false
   /\ NewExternalFacade userCaller = Err ErrPerm
   /\ reach (Register []) "SSHServer" 1 userCaller
        (MPublicKeyAuthentication (args "user-alice" KEY1))
      = Some (Err ErrPerm))
  /\ (AuthController (Auth closedPool) = true
      /\ PoolSystemState (CtxStatePool closedPool)
         = Err (Raw "state pool closed" false)
      /\ NewExternalFacade closedPool
         = Err (Trace (Raw "state pool closed" false)))
  /\ (AuthController (Auth controllerCaller) = true
      /\ PoolSystemState (CtxStatePool controllerCaller) = Ok state
      /\ NewExternalFacade controllerCaller
         = Ok {| systemState := state; statePool := openPool |}).
Proof.
  split; [| split].
  - split; [reflexivity |].
    destruct (proj2 (proj2 (proj2
                (@NewExternalFacade_controller_only names userCaller)))
                eq_refl) as (H1 & _ & H3).
    split; [exact H1 |]. apply H3. reflexivity.
  - split; [reflexivity |]. split; [reflexivity |].
    exact (proj1 (proj1 (proj2
             (@NewExternalFacade_controller_only names closedPool))
             (Raw "state pool closed" false) eq_refl eq_refl)).
  - split; [reflexivity |]. split; [reflexivity |].
    exact (proj1 (proj1 (proj2 (proj2
             (@NewExternalFacade_controller_only names controllerCaller)))
             state eq_refl eq_refl)).
Defined.

Lemma Validate_spec_witness :
  (exists err,
      Worker.Validate
        {| Worker.Logger := Some "test"; Worker.Listener := @None N;
           Worker.JumpHostKey := "jumpHostKey";
           Worker.FacadeClient := Some aliceOnly |} = Some err
      /\ IsNotValid err = true)
  /\ Worker.Validate
       {| Worker.Logger := Some "test"; Worker.Listener := Some 8192%N;
          Worker.JumpHostKey := "jumpHostKey";
          Worker.FacadeClient := Some aliceOnly |} = None.
Proof.
  split.
  - apply (proj1 (WorkerFacts.Validate_spec _)). right. left. reflexivity.
  - apply (proj2 (WorkerFacts.Validate_spec _)); discriminate.
Defined.

Lemma terminatingHop_acknowledgement_witness :
  Worker.authenticate aliceOnly "alice" [Worker.OfferPublicKey KEY1]
  = Worker.Authenticated KEY1
  /\ exists s,
       Worker.terminatingHop aliceOnly
         {| Worker.unitNumber := 1; Worker.applicationName := "postgresql";
            Worker.modelID := "8419cd78-4993-4c3a-928e-c646226beeee";
            Worker.port := 20 |} "alice" [Worker.OfferPublicKey KEY1] ""
       = Some s
       /\ Worker.output s
          = ("Your final destination is: 1.postgresql.8419cd78-4993-4c3a-928e-c646226beeee.juju.local as user: alice"
             ++ Worker.newline)%string
       /\ Worker.sessionClosed s = true
       /\ Worker.channelClosed s = true.
Proof.
  split; [reflexivity |].
  exact (@WorkerFacts.terminatingHop_acknowledgement aliceOnly
           {| Worker.unitNumber := 1; Worker.applicationName := "postgresql";
              Worker.modelID := "8419cd78-4993-4c3a-928e-c646226beeee";
              Worker.port := 20 |} "alice" [Worker.OfferPublicKey KEY1] ""
           KEY1 eq_refl).
Defined.

Lemma publicKeyHandler_spec_witness :
  Worker.authenticate aliceOnly "notfound"
    [Worker.OfferPassword ""; Worker.OfferPublicKey KEY1;
     Worker.OfferPublicKey KEY2]
  = Worker.UnableToAuthenticate
  /\ Worker.authenticate aliceOnly "alice"
       [Worker.OfferPassword ""; Worker.OfferPublicKey KEY2]
     = Worker.Authenticated KEY2.
Proof.
  split.
  - apply (proj1 (proj2 (proj2 (WorkerFacts.publicKeyHandler_spec
                                  aliceOnly "notfound")))).
    intros key _. discriminate.
  - exact (proj2 (proj1 (WorkerFacts.publicKeyHandler_spec aliceOnly "alice")
                    KEY2 [] eq_refl)).
Defined.

(** ** The further properties on the small controllers *)

(** Logs the protocol refuses on the first controller: [Config] and
    [Release] for a model the pool did not hand out, a model that is not
    released, an entry parsed while a model is held, and a call after a
    refusal of the pool. *)
Example conforms_refuses :
  conforms facade
    [@EvModelUUIDsForUser names "carol"; EvGetModel "gone";
     EvModelConfig "gone"; EvRelease "gone"] = false
  /\ conforms facade
       [@EvModelUUIDsForUser names "alice"; EvGetModel "m1";
        EvModelConfig "m1"] = false
  /\ conforms facade
       [@EvModelUUIDsForUser names "alice"; EvGetModel "m1";
        EvModelConfig "m1"; EvParseAuthorizedKey "not-a-key";
        EvRelease "m1"] = false
  /\ conforms facade
       [@EvModelUUIDsForUser names "carol"; EvGetModel "gone";
        EvGetModel "m1"; EvModelConfig "m1"; EvRelease "m1"] = false.
Proof. repeat split. Qed.

(** A listing that names [m2] twice: the pool is asked for [m2] twice when no
    entry matches. *)
Example GetModel_twice :
  count (isGetModelOf "m2")
    (calls (PublicKeyAuthentication facade2
              (args "user-alice" (list_byte_of_string "KEY9")))) = 2.
Proof. vm_compute. reflexivity. Qed.

Lemma PublicKeyAuthentication_sound_witness :
  value (PublicKeyAuthentication facade (args "user-alice" KEY2)) = None
  /\ exists userTag publicKey modelUUIDs uuid authKeys authKey
            pubKey comment options rest,
       ParseUserTag (argUserTag (args "user-alice" KEY2)) = Ok userTag
       /\ ParsePublicKey (argPublicKey (args "user-alice" KEY2)) = Ok publicKey
       /\ ModelUUIDsForUser (systemState facade) userTag = Ok modelUUIDs
       /\ In uuid modelUUIDs
       /\ fetch facade uuid = Ok authKeys
       /\ In authKey authKeys
       /\ ParseAuthorizedKey (list_byte_of_string authKey)
          = Ok (pubKey, comment, options, rest)
       /\ KeysEqual publicKey pubKey = true.
Proof.
  split; [vm_compute; reflexivity |].
  apply (@PublicKeyAuthentication_sound names keys keyfiles facade
           (args "user-alice" KEY2)).
  vm_compute. reflexivity.
Defined.

Lemma PublicKeyAuthentication_same_members_witness :
  ModelUUIDsForUser (systemState facade) "alice" = Ok ["m1"; "m2"]
  /\ ModelUUIDsForUser (systemState facade2) "alice" = Ok ["m2"; "m1"; "m2"]
  /\ fetch facade "m1"
     = Ok ["not-a-key"; "ssh-rsa KEY1 alice@laptop"; "ssh-rsa KEY3 spare"]
  /\ fetch facade2 "m1"
     = Ok ["ssh-rsa KEY3 spare"; "ssh-rsa KEY1 alice@laptop"; "not-a-key";
           "ssh-rsa KEY3 spare"]
  /\ value (PublicKeyAuthentication facade (args "user-alice" KEY1))
     = value (PublicKeyAuthentication facade2 (args "user-alice" KEY1)).
Proof.
  split; [reflexivity |]. split; [reflexivity |].
  split; [vm_compute; reflexivity |]. split; [vm_compute; reflexivity |].
  apply (@PublicKeyAuthentication_same_members names keys keyfiles
           facade facade2 (args "user-alice" KEY1) "alice" KEY1
           ["m1"; "m2"] ["m2"; "m1"; "m2"] eq_refl eq_refl eq_refl eq_refl).
  - intros u. cbn [In]. tauto.
  - intros u [<- | [<- | []]].
    + exists ["not-a-key"; "ssh-rsa KEY1 alice@laptop"; "ssh-rsa KEY3 spare"],
             ["ssh-rsa KEY3 spare"; "ssh-rsa KEY1 alice@laptop"; "not-a-key";
              "ssh-rsa KEY3 spare"].
      split; [vm_compute; reflexivity |]. split; [vm_compute; reflexivity |].
      intros e. cbn [In]. tauto.
    + exists ["ssh-rsa KEY2 bob@desk"], ["ssh-rsa KEY2 bob@desk"].
      split; [vm_compute; reflexivity |]. split; [vm_compute; reflexivity |].
      intros e. tauto.
Defined.

Lemma PublicKeyAuthentication_more_models_witness :
  statePool facade = statePool facade3
  /\ ModelUUIDsForUser (systemState facade) "alice" = Ok ["m1"; "m2"]
  /\ ModelUUIDsForUser (systemState facade3) "alice"
     = Ok (["m1"; "m2"] ++ ["gone"])
  /\ PublicKeyAuthentication facade3 (args "user-alice" KEY2)
     = PublicKeyAuthentication facade (args "user-alice" KEY2).
Proof.
  split; [reflexivity |]. split; [reflexivity |]. split; [reflexivity |].
  apply (proj1 (@PublicKeyAuthentication_more_models names keys keyfiles
                  facade facade3 (args "user-alice" KEY2) "alice" KEY2
                  ["m1"; "m2"] ["gone"]
                  eq_refl eq_refl eq_refl eq_refl eq_refl)).
  intros (e & He & _). vm_compute in He. discriminate He.
Defined.

Lemma PublicKeyAuthentication_call_bounds_witness :
  ParseUserTag "user-alice" = Ok "alice"
  /\ ParsePublicKey (list_byte_of_string "KEY9") = Ok (list_byte_of_string "KEY9")
  /\ ModelUUIDsForUser (systemState facade2) "alice" = Ok ["m2"; "m1"; "m2"]
  /\ count isListing
       (calls (PublicKeyAuthentication facade2
                 (args "user-alice" (list_byte_of_string "KEY9")))) = 1
  /\ count (isGetModelOf "m2")
       (calls (PublicKeyAuthentication facade2
                 (args "user-alice" (list_byte_of_string "KEY9")))) <= 2
  /\ count (isGetModelOf "m1")
       (calls (PublicKeyAuthentication facade2
                 (args "user-alice" (list_byte_of_string "KEY9")))) <= 1
  /\ count (isParseOf "ssh-rsa KEY3 spare")
       (calls (PublicKeyAuthentication facade2
                 (args "user-alice" (list_byte_of_string "KEY9")))) <= 2.
Proof.
  split; [reflexivity |]. split; [reflexivity |]. split; [reflexivity |].
  destruct (@PublicKeyAuthentication_call_bounds names keys keyfiles facade2
              (args "user-alice" (list_byte_of_string "KEY9")) "alice"
              (list_byte_of_string "KEY9") eq_refl eq_refl)
    as (L & _ & B).
  destruct (B ["m2"; "m1"; "m2"] eq_refl) as (G & P & _).
  split; [exact L |].
  split; [exact (G "m2") |]. split; [exact (G "m1") |].
  exact (P "ssh-rsa KEY3 spare").
Defined.

Lemma Client_PublicKeyAuthentication_verdict_witness :
  Client.PublicKeyAuthentication client (args "user-carol" KEY1)
  = Some (Errorf "failed to get authorized key for model: model not found")
  /\ Client.PublicKeyAuthentication client (args "user-alice" KEY1) = None.
Proof.
  split.
  - exact (proj1 (@ClientFacts.Client_PublicKeyAuthentication_verdict
                    names keys keyfiles client facade
                    (args "user-carol" KEY1) (or_introl eq_refl))).
  - exact (proj1 (@ClientFacts.Client_PublicKeyAuthentication_verdict
                    names keys keyfiles client facade
                    (args "user-alice" KEY1) (or_introl eq_refl))).
Defined.

Lemma Client_SSHServerHostKey_delivers_witness :
  HostKey.SSHServerHostKey staleHostKey
  = ("stale", Some (Raw "host key expired" false))
  /\ Client.SSHServerHostKey client
     = ("", Some (Raw "host key expired" false)).
Proof.
  split; [reflexivity |].
  exact (proj1 (@ClientFacts.Client_SSHServerHostKey_delivers
                  serverError staleHostKey client eq_refl)).
Defined.
